(** * Three-way tree merge: [src/utils/mergeTree.js]

    A shallow embedding of [mergeTree], its per-path callback [map], its
    post-order callback [reduce], the change detector [modified] and the
    blob merger [mergeBlobs], followed by the properties of the
    specification that were checked against them.

    JavaScript values are modelled as follows.
    - [null] / [undefined] of an optional object, string or number is
      [None]; truthiness ([!!x], [!x], [x || y], [x ?? y]) is written out.
    - A walker entry exposes [type()], [mode()], [oid()], [content()] and
      the field [_fullpath]; the awaits are transparent, so the accessors
      are record projections.  [content] is [None] when reading or decoding
      throws.
    - An [async] function is a function from the world (object store and
      the trace of calls to the external collaborators) to a completion
      (normal return or thrown error) and the new world. *)

From Stdlib Require Import ZArith Ascii String List Bool.
From stdpp Require Import base option gmap strings.

Local Open Scope string_scope.

(** ** Data model *)

Module WalkerEntry.
(** One side of a merge triple when it is present. *)
Record t : Type := mk {
  type : string;
  mode : Z;
  oid : string;
  content : option string;
  _fullpath : string
}.
End WalkerEntry.

Module TreeEntry.
(** The object literal [{ mode, path, oid, type }] returned by [map] and
    [mergeBlobs].  [mode] is [None] when the JavaScript value is [null]. *)
Record t : Type := mk {
  mode : option Z;
  path : string;
  oid : string;
  type : string
}.

(** [parent.oid = oid] *)
Definition set_oid (e : t) (o : string) : t :=
  {| mode := mode e; path := path e; oid := o; type := type e |}.
End TreeEntry.

(** What is handed to [writeObject]: [type: 'blob'] with the UTF-8 bytes of
    a text, or [type: 'tree'] with [new GitTree(entries).toObject()]. *)
Inductive GitObject : Type :=
| Blob (bytes : string)
| Tree (entries : list TreeEntry.t).

(** The error classes whose instances can leave the functions of this
    file, named by their constructor. [TypeError] is what the engine raises
    on a property access through [null]. A completion [Throw c] is
    [throw new c()]. *)
Inductive JsError : Type :=
| MergeAbortedError
| MergeNotSupportedError
| TypeError.


Module MergeAbortedErrorJs.
(** [../errors/MergeAbortedError.js]. The classes [BaseError] (its
    superclass) and [MergeNotSupportedError] are declared in files that are
    not part of these sources. *)




End MergeAbortedErrorJs.

Module MergeFile.
(** The argument object and the result of the text merger [mergeFile]. *)
Record args : Type := mk_args {
  ourContent : string;
  baseContent : string;
  theirContent : string;
  ourName : option string;
  theirName : option string;
  baseName : option string;
  format : option string;
  markerSize : option Z
}.
Record result : Type := mk_result {
  mergedText : string;
  cleanMerge : bool
}.
End MergeFile.

(** The outcome of awaiting [asyncMergeConflictCallback(text, fullpath)]:
    it resolves to a text (or to [undefined]), or it rejects with a value
    whose [message] property is a string (or is missing). *)
Inductive ResolverOutcome : Type :=
| Resolves (text : option string)
| Rejects (message : option string).

Definition ConflictResolver : Type := string -> string -> ResolverOutcome.

(** Calls to the external collaborators, in the order they happen. *)
Inductive Event : Type :=
| MergeFileCalled (a : MergeFile.args)
| ResolverCalled (text fullpath : string)
| WriteObjectCalled (object : GitObject) (dryRun : option bool).

(** The object database of [gitdir] (what [fs] and [gitdir] designate) and
    the trace of external calls. *)
Record World : Type := mkWorld {
  store : gmap string GitObject;
  trace : list Event
}.

Definition emit (ev : Event) (w : World) : World :=
  {| store := store w; trace := trace w ++ [ev] |}.

Definition persist (o : string) (object : GitObject) (w : World) : World :=
  {| store := <[o := object]> (store w); trace := trace w |}.

(** ** Completions and the [async] monad *)

Inductive Completion (A : Type) : Type :=
| Return (a : A)
| Throw (e : JsError).
Arguments Return {A} a.
Arguments Throw {A} e.

Definition Async (A : Type) : Type := World -> Completion A * World.

Definition ret {A} (a : A) : Async A := fun w => (Return a, w).
Definition throw {A} (e : JsError) : Async A := fun w => (Throw e, w).
Definition bind {A B} (m : Async A) (k : A -> Async B) : Async B :=
  fun w => match m w with
           | (Return a, w') => k a w'
           | (Throw e, w') => (Throw e, w')
           end.

Declare Scope async_scope.
Delimit Scope async_scope with async.
Notation "'let*' x := m 'in' k" := (bind m (fun x => k))
  (at level 10, x name, m at level 200, k at level 200) : async_scope.
Local Open Scope async_scope.

(** ** Truthiness *)

(** [!!m] for a number or [null]. *)
Definition truthy_mode (m : option Z) : bool :=
  match m with
  | Some z => negb (z =? 0)%Z
  | None => false
  end.

(** [!!s] for a string or [undefined]. *)
Definition truthy_text (s : option string) : bool :=
  match s with
  | Some t => negb (t =? "")
  | None => false
  end.

(** [!!b] for a boolean or [undefined]. *)
Definition truthy_flag (b : option bool) : bool :=
  match b with
  | Some v => v
  | None => false
  end.

(** [x ?? y] *)
Definition nullish {A} (x y : option A) : option A :=
  match x with
  | Some v => Some v
  | None => y
  end.

(** [!!x] for an optional entry. *)
Definition present {A} (x : option A) : bool :=
  match x with
  | Some _ => true
  | None => false
  end.

(** ** [modified] *)

Definition modified (entry base : option WalkerEntry.t) : bool :=
  match entry, base with
  | None, None => false
  | Some _, None => true
  | None, Some _ => true
  | Some e, Some b =>
      if (WalkerEntry.type e =? "tree") && (WalkerEntry.type b =? "tree")
      then false
      else if (WalkerEntry.type e =? WalkerEntry.type b)
              && (WalkerEntry.mode e =? WalkerEntry.mode b)%Z
              && (WalkerEntry.oid e =? WalkerEntry.oid b)
      then false
      else true
  end.

(** ** The engine, over its external collaborators *)

Module MergeBlobs.
(** The destructured argument object of [mergeBlobs]; a property the
    caller leaves out is [None] ([undefined]). [fs] and [gitdir]
    designate the store of the world. *)
Record args : Type := mk {
  path : string;
  ours : option WalkerEntry.t;
  base : option WalkerEntry.t;
  theirs : option WalkerEntry.t;
  ourName : option string;
  theirName : option string;
  baseName : option string;
  format : option string;
  markerSize : option Z;
  dryRun : option bool;
  asyncMergeConflictCallback : option ConflictResolver
}.
End MergeBlobs.

Module MergeTree.
(** The destructured argument object of [mergeTree]. [ourOid], [baseOid]
    and [theirOid] reach the code only through the walker, which turns
    them into the triples it visits. *)
Record args : Type := mk {
  ourName : option string;
  baseName : option string;
  theirName : option string;
  dryRun : option bool;
  asyncMergeConflictCallback : option ConflictResolver
}.

(** The parameter defaults [ourName = 'ours'], [baseName = 'base'],
    [theirName = 'theirs'], [dryRun = false]. *)
Definition ourName' (a : args) : string := default "ours" (ourName a).
Definition baseName' (a : args) : string := default "base" (baseName a).
Definition theirName' (a : args) : string := default "theirs" (theirName a).
Definition dryRun' (a : args) : bool := default false (dryRun a).
End MergeTree.

(** What the walker visits: a path, the three sides at that path and the
    union of their children. *)
#[warnings="-register-all"]
Inductive TripleTree : Type :=
| TripleNode (filepath : string)
             (ours base theirs : option WalkerEntry.t)
             (children : list TripleTree).

Section Engine.

(** [basename] of [./basename.js] and [mergeFile] of [./mergeFile.js]. *)
Variable basename : string -> string.
Variable mergeFile : MergeFile.args -> MergeFile.result.
(** The content address of an object: the identifier [writeObject]
    computes from the type and the bytes. *)
Variable hashObject : GitObject -> string.

(** Modelled from the spec: [writeObject] of [../storage/writeObject.js],
    the write of the object store. It is content-addressed (identical
    type and bytes yield the identical oid) and it has a dry-run mode
    that computes the oid but does not persist; a [dryRun] that is left
    out is falsy, so the object is persisted. *)
Definition writeObject (object : GitObject) (dryRun : option bool)
  : Async string :=
  fun w =>
    let o := hashObject object in
    let w1 := emit (WriteObjectCalled object dryRun) w in
    (Return o, if truthy_flag dryRun then w1 else persist o object w1).

Definition callMergeFile (a : MergeFile.args) : Async MergeFile.result :=
  fun w => (Return (mergeFile a), emit (MergeFileCalled a) w).

(** [Buffer.from(await x.content()).toString('utf8')] inside
    [try { ... } catch { }], starting from [""]. *)
Definition content_or_empty (x : option WalkerEntry.t) : string :=
  match x with
  | Some e => default "" (WalkerEntry.content e)
  | None => ""
  end.

(** The three-way shortcut of [mergeBlobs]: the block guarded by
    [!!baseMode && !!ourMode && !!theirMode]. [Some] is a [return] from
    inside the block, [None] is falling out of it. *)
Definition shortcut (path : string) (ours base theirs : option WalkerEntry.t)
  : option TreeEntry.t :=
  let ourMode := WalkerEntry.mode <$> ours in
  let theirMode := WalkerEntry.mode <$> theirs in
  let baseMode := WalkerEntry.mode <$> base in
  if truthy_mode baseMode && truthy_mode ourMode && truthy_mode theirMode
  then
    match base, ours, theirs with
    | Some b, Some o, Some t =>
        let mode :=
          if (WalkerEntry.mode b =? WalkerEntry.mode o)%Z
          then WalkerEntry.mode t else WalkerEntry.mode o in
        let baseOID := WalkerEntry.oid b in
        let oursOID := WalkerEntry.oid o in
        let theirsOID := WalkerEntry.oid t in
        if oursOID =? theirsOID
        then Some (TreeEntry.mk (Some mode) path oursOID "blob")
        else if oursOID =? baseOID
        then Some (TreeEntry.mk (Some mode) path theirsOID "blob")
        else if theirsOID =? baseOID
        then Some (TreeEntry.mk (Some mode) path oursOID "blob")
        else None
    | _, _, _ => None
    end
  else None.

(** The value of [fullpath] handed to the resolver:
    [try { fullpath = base._fullpath }
     catch (error) { fullpath = ours?._fullpath || theirs._fullpath }].
    [None] is the [TypeError] of [theirs._fullpath] through [null]. *)
Definition conflict_fullpath (ours base theirs : option WalkerEntry.t)
  : option string :=
  match base with
  | Some b => Some (WalkerEntry._fullpath b)
  | None =>
      if truthy_text (WalkerEntry._fullpath <$> ours)
      then WalkerEntry._fullpath <$> ours
      else WalkerEntry._fullpath <$> theirs
  end.

(** The [catch (error)] of [mergeBlobs] on [error?.message]. *)
Definition on_rejection (message : option string) : JsError :=
  match message with
  | Some m => if m =? "Aborted merge"
              then MergeAbortedError else MergeNotSupportedError
  | None => MergeNotSupportedError
  end.

(** The body of [if (!cleanMerge) { try { ... } catch (error) { ... } }].
    [Return (Some text)] leaves the block with [awaitedMergedText = text];
    [Return None] is the [return undefined] inside it. A [TypeError] raised
    inside the [try] (no full path, or no callback to call) carries a
    message other than ["Aborted merge"]. *)
Definition resolve_conflict (a : MergeBlobs.args) (mergedText : string)
  : Async (option string) :=
  match conflict_fullpath (MergeBlobs.ours a) (MergeBlobs.base a)
                          (MergeBlobs.theirs a) with
  | None => throw MergeNotSupportedError
  | Some fullpath =>
      match MergeBlobs.asyncMergeConflictCallback a with
      | None => throw MergeNotSupportedError
      | Some callback =>
          fun w =>
            let w1 := emit (ResolverCalled mergedText fullpath) w in
            match callback mergedText fullpath with
            | Resolves awaitedMergedText =>
                if truthy_text awaitedMergedText
                then (Return awaitedMergedText, w1)
                else (Return None, w1)
            | Rejects message => (Throw (on_rejection message), w1)
            end
      end
  end.

(** The argument object of the call of [mergeFile] in [mergeBlobs]. *)
Definition text_merge_call (a : MergeBlobs.args) : MergeFile.args :=
  MergeFile.mk_args (content_or_empty (MergeBlobs.ours a))
                    (content_or_empty (MergeBlobs.base a))
                    (content_or_empty (MergeBlobs.theirs a))
                    (MergeBlobs.ourName a) (MergeBlobs.theirName a)
                    (MergeBlobs.baseName a) (MergeBlobs.format a)
                    (MergeBlobs.markerSize a).

(** The end of [mergeBlobs]: the write of the merged text and the entry
    [{ mode: ourMode ?? theirMode, path, oid, type }]. *)
Definition write_merged_blob (a : MergeBlobs.args) (awaitedMergedText : string)
  : Async (option TreeEntry.t) :=
  let type := "blob" in
  let ourMode := WalkerEntry.mode <$> MergeBlobs.ours a in
  let theirMode := WalkerEntry.mode <$> MergeBlobs.theirs a in
  let* oid := writeObject (Blob awaitedMergedText) (MergeBlobs.dryRun a) in
  ret (Some (TreeEntry.mk (nullish ourMode theirMode) (MergeBlobs.path a)
                          oid type)).

Definition mergeBlobs (a : MergeBlobs.args) : Async (option TreeEntry.t) :=
  match shortcut (MergeBlobs.path a) (MergeBlobs.ours a) (MergeBlobs.base a)
                 (MergeBlobs.theirs a) with
  | Some entry => ret (Some entry)
  | None =>
      let* r := callMergeFile (text_merge_call a) in
      let mergedText := MergeFile.mergedText r in
      let* awaitedMergedText :=
        (if MergeFile.cleanMerge r then ret (Some mergedText)
         else resolve_conflict a mergedText) in
      match awaitedMergedText with
      | None => ret None
      | Some text => write_merged_blob a text
      end
  end.

(** The object literal
    [{ mode: await x.mode(), path, oid: await x.oid(), type: await x.type() }]. *)
Definition entry_of (path : string) (x : WalkerEntry.t) : TreeEntry.t :=
  TreeEntry.mk (Some (WalkerEntry.mode x)) path
               (WalkerEntry.oid x) (WalkerEntry.type x).

(** [await x.type()], which is a [TypeError] through [null]. *)
Definition type_of (x : option WalkerEntry.t) : Async string :=
  match x with
  | Some e => ret (WalkerEntry.type e)
  | None => throw TypeError
  end.

(** [x && (await x.type()) === kind], the access guarded by presence. *)
Definition has_type (x : option WalkerEntry.t) (kind : string) : bool :=
  match x with
  | Some e => WalkerEntry.type e =? kind
  | None => false
  end.

(** [base === null && (await ours.type()) === kind
     && (await theirs.type()) === kind], evaluated left to right. *)
Definition added_on_both_sides (kind : string)
           (ours base theirs : option WalkerEntry.t) : Async bool :=
  if present base then ret false
  else
    let* ourType := type_of ours in
    if negb (ourType =? kind) then ret false
    else
      let* theirType := type_of theirs in
      ret (theirType =? kind).

(** The argument object of the first call of [mergeBlobs] in [map], which
    names [baseName], and that of the three other calls, which do not.
    None of them names [dryRun], [format] or [markerSize]. *)
Definition blobs_args_three_way (a : MergeTree.args) (path : string)
           (ours base theirs : option WalkerEntry.t) : MergeBlobs.args :=
  MergeBlobs.mk path ours base theirs
                (Some (MergeTree.ourName' a))
                (Some (MergeTree.theirName' a))
                (Some (MergeTree.baseName' a))
                None None None
                (MergeTree.asyncMergeConflictCallback a).

Definition blobs_args_other (a : MergeTree.args) (path : string)
           (ours base theirs : option WalkerEntry.t) : MergeBlobs.args :=
  MergeBlobs.mk path ours base theirs
                (Some (MergeTree.ourName' a))
                (Some (MergeTree.theirName' a))
                None
                None None None
                (MergeTree.asyncMergeConflictCallback a).

(** The [map] callback handed to the walker. The walker hands [null] for
    a side that has no entry at the path, so [base === null] is [None] and
    [base !== null] is [Some]. *)
Definition map (a : MergeTree.args) (filepath : string)
           (ours base theirs : option WalkerEntry.t)
  : Async (option TreeEntry.t) :=
  let path := basename filepath in
  let ourChange := modified ours base in
  let theirChange := modified theirs base in
  match ourChange, theirChange with
  | false, false =>
      match base with
      | Some b => ret (Some (entry_of path b))
      | None => throw TypeError
      end
  | false, true => ret (entry_of path <$> theirs)
  | true, false => ret (entry_of path <$> ours)
  | true, true =>
      if present ours && present base && present theirs
         && has_type ours "blob" && has_type base "blob"
         && has_type theirs "blob"
      then mergeBlobs (blobs_args_three_way a path ours base theirs)
      else
        let* bothAddedBlob := added_on_both_sides "blob" ours base theirs in
        if bothAddedBlob
        then mergeBlobs (blobs_args_other a path ours base theirs)
        else
          let* bothAddedTree :=
            added_on_both_sides "tree" ours base theirs in
          if bothAddedTree
          then ret (entry_of path <$> ours)
          else if present base && negb (present ours)
                  && negb (present theirs)
          then ret None
          else if present base && present ours && negb (present theirs)
                  && has_type ours "blob"
          then mergeBlobs (blobs_args_other a path ours base theirs)
          else if present base && present theirs && negb (present ours)
                  && has_type theirs "blob"
          then mergeBlobs (blobs_args_other a path ours base theirs)
          else throw MergeNotSupportedError
  end.

(** [children.filter(Boolean)] *)
Fixpoint filter_Boolean (children : list (option TreeEntry.t))
  : list TreeEntry.t :=
  match children with
  | [] => []
  | Some e :: rest => e :: filter_Boolean rest
  | None :: rest => filter_Boolean rest
  end.

(** The [reduce] callback handed to the walker. *)
Definition reduce (a : MergeTree.args) (parent : option TreeEntry.t)
           (children : list (option TreeEntry.t))
  : Async (option TreeEntry.t) :=
  let entries := filter_Boolean children in
  match parent with
  | None => ret None
  | Some p =>
      if (TreeEntry.type p =? "tree") && (length entries =? 0)%nat
      then ret None
      else if (0 <? length entries)%nat
      then
        let* oid := writeObject (Tree entries)
                                (Some (MergeTree.dryRun' a)) in
        ret (Some (TreeEntry.set_oid p oid))
      else ret (Some p)
  end.

(** Modelled from the spec: [_walk] of [../commands/walk.js], the tree
    walker. It invokes [map] on the triple of a path, walks the children
    of that path, and invokes [reduce] on the result of [map] and the
    results of the children, in post-order. The children are walked one
    after the other and the first error aborts the walk. *)
Fixpoint _walk (a : MergeTree.args) (node : TripleTree)
  : Async (option TreeEntry.t) :=
  match node with
  | TripleNode filepath ours base theirs children =>
      let* parent := map a filepath ours base theirs in
      let* walkedChildren :=
        (fix iterate (nodes : list TripleTree)
           : Async (list (option TreeEntry.t)) :=
           match nodes with
           | [] => ret []
           | child :: rest =>
               let* r := _walk a child in
               let* rs := iterate rest in
               ret (r :: rs)
           end) children in
      reduce a parent walkedChildren
  end.

(** [mergeTree]: [return results.oid], a [TypeError] when the walk yields
    [undefined]. *)
Definition mergeTree (a : MergeTree.args) (root : TripleTree)
  : Async string :=
  let* results := _walk a root in
  match results with
  | Some r => ret (TreeEntry.oid r)
  | None => throw TypeError
  end.
End Engine.

(** ** Vocabulary for the effects *)

(** The completion of a computation does not depend on the world it
    starts from. *)
Definition oblivious {A} (m : Async A) : Prop :=
  forall w w', fst (m w) = fst (m w').

(** A computation takes every world to one related to it. *)
Definition keeps {A} (R : World -> World -> Prop) (m : Async A) : Prop :=
  forall w, R w (snd (m w)).

(** From [w] to [w'] no empty tree entered the store and no write of an
    empty tree was asked for. *)
Definition no_empty_tree_written (w w' : World) : Prop :=
  (forall o, store w' !! o = Some (Tree []) -> store w !! o = Some (Tree [])) /\
  (forall dryRun,
      In (WriteObjectCalled (Tree []) dryRun) (trace w') ->
      In (WriteObjectCalled (Tree []) dryRun) (trace w)).

(** From [w] to [w'] no tree entered the store. *)
Definition no_tree_persisted (w w' : World) : Prop :=
  forall o entries,
    store w' !! o = Some (Tree entries) -> store w !! o = Some (Tree entries).
(** At every path of the tree at most one side differs from the base. *)
Fixpoint one_sided (node : TripleTree) : Prop :=
  match node with
  | TripleNode _ ours base theirs children =>
      (modified ours base = false \/ modified theirs base = false) /\
      (fix all (nodes : list TripleTree) : Prop :=
         match nodes with
         | [] => True
         | child :: rest => one_sided child /\ all rest
         end) children
  end.

Definition is_tree_write (ev : Event) : Prop :=
  match ev with
  | WriteObjectCalled (Tree _) _ => True
  | _ => False
  end.

(** From [w] to [w'] the only calls were writes of trees, and no blob
    entered the store. *)
Definition only_trees_written (w w' : World) : Prop :=
  (exists written,
      trace w' = (trace w ++ written)%list /\ Forall is_tree_write written) /\
  (forall o text,
      store w' !! o = Some (Blob text) -> store w !! o = Some (Blob text)).
(** ** Concrete collaborators and inputs *)

Module Fixture.
Fixpoint after_last_slash (p : string) : option string :=
  match p with
  | EmptyString => None
  | String c rest =>
      match after_last_slash rest with
      | Some r => Some r
      | None => if Ascii.eqb c "/"%char then Some rest else None
      end
  end.

Definition basename (p : string) : string :=
  default p (after_last_slash p).

(** A text merger that works on whole files: it is clean exactly when a
    side kept the base text or both sides agree. *)
Definition mergeFile (a : MergeFile.args) : MergeFile.result :=
  let ours := MergeFile.ourContent a in
  let base := MergeFile.baseContent a in
  let theirs := MergeFile.theirContent a in
  if ours =? theirs then MergeFile.mk_result ours true
  else if ours =? base then MergeFile.mk_result theirs true
  else if theirs =? base then MergeFile.mk_result ours true
  else MergeFile.mk_result
         ("<<<<<<< " ++ default "ours" (MergeFile.ourName a) ++ "|"
          ++ ours ++ "|=======|" ++ theirs ++ "|>>>>>>> "
          ++ default "theirs" (MergeFile.theirName a))
         false.

(** A content address that spells the object out. *)
Definition hashObject (object : GitObject) : string :=
  match object with
  | Blob bytes => "blob " ++ bytes
  | Tree entries =>
      "tree" ++ String.concat ""
                  (List.map (fun e => " " ++ TreeEntry.path e ++ "="
                                      ++ TreeEntry.oid e) entries)
  end.

(** The blob modes [0o100644] and [0o100755], and the tree mode
    [0o040000]. *)
Definition regular : Z := 33188.
Definition executable : Z := 33261.
Definition directory : Z := 16384.

Definition blob (mode : Z) (text fullpath : string) : WalkerEntry.t :=
  WalkerEntry.mk "blob" mode (hashObject (Blob text)) (Some text) fullpath.

Definition dir (entries : list TreeEntry.t) (fullpath : string)
  : WalkerEntry.t :=
  WalkerEntry.mk "tree" directory (hashObject (Tree entries)) None fullpath.

Definition empty_world : World := mkWorld ∅ [].

(** A resolver that keeps both sides, one that empties the file, and one
    that aborts. *)
Definition keep_both : ConflictResolver := fun _ _ => Resolves (Some "ABC").
Definition empty_file : ConflictResolver := fun _ _ => Resolves (Some "").

Definition call (dryRun : bool) (callback : ConflictResolver)
  : MergeTree.args :=
  MergeTree.mk None (Some "ancestor") None (Some dryRun) (Some callback).

Definition abort : ConflictResolver :=
  fun _ _ => Rejects (Some "Aborted merge").
Definition crash : ConflictResolver :=
  fun _ _ => Rejects (Some "disk full").

(** The path [src/a.txt]: the base text, an edit on each side (theirs also
    made the file executable), the same edit as ours under the executable
    mode, and a directory in place of the file. *)
Definition a_base : WalkerEntry.t := blob regular "A" "src/a.txt".
Definition a_ours : WalkerEntry.t := blob regular "AB" "src/a.txt".
Definition a_theirs : WalkerEntry.t := blob executable "AC" "src/a.txt".
Definition a_theirs_agreeing : WalkerEntry.t :=
  blob executable "AB" "src/a.txt".
Definition a_directory : WalkerEntry.t :=
  dir [TreeEntry.mk (Some regular) "b.txt" (hashObject (Blob "B")) "blob"]
      "src/a.txt".

(** The directory [src] on the three sides and the triples under it. *)
Definition src_of (a : WalkerEntry.t) : WalkerEntry.t :=
  dir [TreeEntry.mk (Some (WalkerEntry.mode a)) "a.txt" (WalkerEntry.oid a)
                    (WalkerEntry.type a)] "src".

Definition conflicting_src : TripleTree :=
  TripleNode "src" (Some (src_of a_ours)) (Some (src_of a_base))
             (Some (src_of a_theirs))
             [TripleNode "src/a.txt" (Some a_ours) (Some a_base)
                         (Some a_theirs) []].

(** The argument object of [mergeBlobs] for the conflict on [src/a.txt]. *)
Definition conflict (callback : ConflictResolver) : MergeBlobs.args :=
  blobs_args_three_way (call false callback) "a.txt"
                       (Some a_ours) (Some a_base) (Some a_theirs).

(** The result entry of the directory [src] as [map] passes it through. *)
Definition src_entry : TreeEntry.t :=
  entry_of "src" (src_of a_base).

(** Ours made the base file executable and left its text alone; both
    sides added the same file; the conflict on [src/a.txt] when no
    resolver was handed to [mergeTree]. *)
Definition a_ours_chmod : WalkerEntry.t := blob executable "A" "src/a.txt".

Definition added_twice : MergeBlobs.args :=
  blobs_args_other (call false keep_both) "a.txt"
                   (Some a_ours) None (Some a_ours).

Definition call_without_resolver : MergeTree.args :=
  MergeTree.mk None None None None None.

Definition conflict_without_resolver : MergeBlobs.args :=
  blobs_args_three_way call_without_resolver "a.txt"
                       (Some a_ours) (Some a_base) (Some a_theirs).

(** Three empty directories at the root. *)
Definition empty_root : TripleTree :=
  TripleNode "." (Some (dir [] ".")) (Some (dir [] ".")) (Some (dir [] "."))
             [].

(** Only theirs touched [src/a.txt]. *)
Definition one_sided_src : TripleTree :=
  TripleNode "src" (Some (src_of a_base)) (Some (src_of a_base))
             (Some (src_of a_theirs))
             [TripleNode "src/a.txt" (Some a_base) (Some a_base)
                         (Some a_theirs) []].

(** Both sides deleted [src/a.txt], the only entry of [src]. *)
Definition emptied_src : TripleTree :=
  TripleNode "src" (Some (dir [] "src")) (Some (src_of a_base))
             (Some (dir [] "src"))
             [TripleNode "src/a.txt" None (Some a_base) None []].
End Fixture.

(** ** Properties *)

(** *** The change detector *)

Lemma string_eqb_true (s t : string) : (s =? t) = true <-> s = t.
Proof. apply String.eqb_eq. Qed.

(** Two present entries are unmodified exactly when both are trees or they
    agree on type, mode and oid. *)
Lemma unmodified_present (e b : WalkerEntry.t) :
  modified (Some e) (Some b) = false <->
  (WalkerEntry.type e = "tree" /\ WalkerEntry.type b = "tree") \/
  (WalkerEntry.type e = WalkerEntry.type b /\
   WalkerEntry.mode e = WalkerEntry.mode b /\
   WalkerEntry.oid e = WalkerEntry.oid b).
Proof.
  simpl.
  destruct (String.eqb_spec (WalkerEntry.type e) "tree");
    destruct (String.eqb_spec (WalkerEntry.type b) "tree");
    destruct (String.eqb_spec (WalkerEntry.type e) (WalkerEntry.type b));
    destruct (Z.eqb_spec (WalkerEntry.mode e) (WalkerEntry.mode b));
    destruct (String.eqb_spec (WalkerEntry.oid e) (WalkerEntry.oid b));
    simpl; split; intros H; try reflexivity; try discriminate H;
    intuition congruence.
Qed.

(** C5. [modified(entry, base)] is [false] when both are absent, [true]
    when exactly one is present, [false] when both are present and both of
    type tree, [false] when both are present with the same type, the same
    mode and the same oid, and [true] otherwise. *)
Theorem modified_decision_table (entry base : option WalkerEntry.t) :
  (entry = None -> base = None -> modified entry base = false) /\
  (present entry <> present base -> modified entry base = true) /\
  (forall e b, entry = Some e -> base = Some b ->
     (WalkerEntry.type e = "tree" /\ WalkerEntry.type b = "tree" ->
      modified entry base = false) /\
     (WalkerEntry.type e = WalkerEntry.type b /\
      WalkerEntry.mode e = WalkerEntry.mode b /\
      WalkerEntry.oid e = WalkerEntry.oid b ->
      modified entry base = false) /\
     (~ (WalkerEntry.type e = "tree" /\ WalkerEntry.type b = "tree") ->
      ~ (WalkerEntry.type e = WalkerEntry.type b /\
         WalkerEntry.mode e = WalkerEntry.mode b /\
         WalkerEntry.oid e = WalkerEntry.oid b) ->
      modified entry base = true)).
Proof.
  split; [|split].
  - intros -> ->. reflexivity.
  - destruct entry, base; simpl; intros H; try reflexivity; contradiction H;
      reflexivity.
  - intros e b -> ->. simpl. repeat split.
    + intros [He Hb].
      apply string_eqb_true in He, Hb. rewrite He, Hb. reflexivity.
    + intros (Ht & Hm & Ho).
      apply string_eqb_true in Ht, Ho. apply Z.eqb_eq in Hm.
      rewrite Ht, Hm, Ho. simpl.
      destruct (_ && _); reflexivity.
    + intros Htree Hsame.
      destruct (WalkerEntry.type e =? "tree") eqn:He;
        destruct (WalkerEntry.type b =? "tree") eqn:Hb; simpl;
        try (exfalso; apply Htree; split; apply string_eqb_true; assumption).
      all: destruct (WalkerEntry.type e =? WalkerEntry.type b) eqn:Ht;
        destruct (WalkerEntry.mode e =? WalkerEntry.mode b)%Z eqn:Hm;
        destruct (WalkerEntry.oid e =? WalkerEntry.oid b) eqn:Ho;
        simpl; try reflexivity.
      all: exfalso; apply Hsame; repeat split;
        try (apply string_eqb_true; assumption);
        apply Z.eqb_eq; assumption.
Qed.

(** When neither side differs from the base, the base is there or nothing
    is there at all. *)
Lemma unmodified_both_sides (ours base theirs : option WalkerEntry.t) :
  modified ours base = false -> modified theirs base = false ->
  present base = true \/ (ours = None /\ base = None /\ theirs = None).
Proof.
  destruct ours, base, theirs; simpl; intros; try discriminate; auto.
Qed.

Section Properties.

Variable basename : string -> string.
Variable mergeFile : MergeFile.args -> MergeFile.result.
Variable hashObject : GitObject -> string.

Local Abbreviation map := (map basename mergeFile hashObject).
Local Abbreviation mergeBlobs := (mergeBlobs mergeFile hashObject).
Local Abbreviation reduce := (reduce hashObject).
Local Abbreviation mergeTree := (mergeTree basename mergeFile hashObject).

(** *** The per-path decision *)

(** C10. For a triple the walker visits (at least one of ours, base and
    theirs is present), if [modified(ours, base)] and
    [modified(theirs, base)] are both [false] then base is present, and
    the pass-through branch returns the entry of base without
    dereferencing an absent entry. *)
Theorem pass_through_base_present
        (a : MergeTree.args) (filepath : string)
        (ours base theirs : option WalkerEntry.t) (w : World) :
  present ours || present base || present theirs = true ->
  modified ours base = false ->
  modified theirs base = false ->
  exists b,
    base = Some b /\
    map a filepath ours base theirs w
    = (Return (Some (entry_of (basename filepath) b)), w).
Proof.
  intros Hvisited Hours Htheirs.
  destruct (unmodified_both_sides _ _ _ Hours Htheirs)
    as [Hbase | (-> & -> & ->)]; [|discriminate].
  destruct base as [b|]; [|discriminate].
  exists b. split; [reflexivity|].
  unfold map. rewrite Hours, Htheirs. reflexivity.
Qed.

(** C2, as the code has it. Where base holds a blob and ours turned the
    path into a directory: if theirs left the blob as it was (same type,
    mode and oid), the decision takes the entry of ours verbatim and raises
    nothing; [MergeNotSupportedError] is raised when theirs differs from
    base as well. *)
Theorem blob_to_directory_on_one_side
        (a : MergeTree.args) (filepath : string)
        (o b : WalkerEntry.t) (w : World) :
  WalkerEntry.type b = "blob" ->
  WalkerEntry.type o = "tree" ->
  (forall t,
      WalkerEntry.type t = WalkerEntry.type b ->
      WalkerEntry.mode t = WalkerEntry.mode b ->
      WalkerEntry.oid t = WalkerEntry.oid b ->
      map a filepath (Some o) (Some b) (Some t) w
      = (Return (Some (entry_of (basename filepath) o)), w)) /\
  (forall theirs,
      modified theirs (Some b) = true ->
      map a filepath (Some o) (Some b) theirs w
      = (Throw MergeNotSupportedError, w)).
Proof.
  intros Hb Ho.
  assert (Hours : modified (Some o) (Some b) = true).
  { simpl. rewrite Hb, Ho. reflexivity. }
  split.
  - intros t Ht Hm Hoid.
    assert (Htheirs : modified (Some t) (Some b) = false).
    { apply unmodified_present. auto. }
    unfold map. rewrite Hours, Htheirs. reflexivity.
  - intros theirs Htheirs.
    unfold map. rewrite Hours, Htheirs.
    unfold has_type, added_on_both_sides. rewrite Ho.
    destruct theirs as [t|]; simpl; rewrite ?andb_false_r; reflexivity.
Qed.

(** *** The blob merger *)

(** A [return] inside the three-way block leaves the world as it is. *)
Lemma mergeBlobs_shortcut (a : MergeBlobs.args) (e : TreeEntry.t) (w : World) :
  shortcut (MergeBlobs.path a) (MergeBlobs.ours a) (MergeBlobs.base a)
           (MergeBlobs.theirs a) = Some e ->
  mergeBlobs a w = (Return (Some e), w).
Proof. intros H. unfold mergeBlobs. rewrite H. reflexivity. Qed.

(** The mode of a shortcut result follows the rule: theirs' mode when ours
    kept the mode of base, ours' mode otherwise. *)
Lemma shortcut_mode (path : string) (o b t : WalkerEntry.t) (e : TreeEntry.t) :
  shortcut path (Some o) (Some b) (Some t) = Some e ->
  TreeEntry.mode e
  = Some (if (WalkerEntry.mode b =? WalkerEntry.mode o)%Z
          then WalkerEntry.mode t else WalkerEntry.mode o).
Proof.
  unfold shortcut.
  destruct (_ && _); [|discriminate].
  repeat (destruct (_ =? _); [intros [= <-]; reflexivity|]).
  discriminate.
Qed.

(** Past the shortcut, [mergeFile] is called once, with the texts of the
    three sides and whatever names the caller of [mergeBlobs] handed over. *)
Lemma mergeBlobs_text_merge (a : MergeBlobs.args) (w : World) :
  shortcut (MergeBlobs.path a) (MergeBlobs.ours a) (MergeBlobs.base a)
           (MergeBlobs.theirs a) = None ->
  exists rest,
    trace (snd (mergeBlobs a w))
    = (trace w ++ MergeFileCalled (text_merge_call a) :: rest)%list.
Proof.
  intros H. unfold mergeBlobs. rewrite H.
  unfold write_merged_blob, bind, callMergeFile, resolve_conflict,
    writeObject, ret, throw.
  destruct (MergeFile.cleanMerge _); simpl.
  - destruct (truthy_flag _); simpl; rewrite <- app_assoc; eauto.
  - destruct (conflict_fullpath _ _ _); [|simpl; eauto].
    destruct (MergeBlobs.asyncMergeConflictCallback a) as [callback|];
      [|simpl; eauto].
    destruct (callback _ _) as [text|message]; simpl.
    + destruct (truthy_text text) eqn:Htext; simpl.
      * destruct text; [|discriminate].
        destruct (truthy_flag _); simpl; rewrite <- !app_assoc; eauto.
      * rewrite <- app_assoc; eauto.
    + rewrite <- app_assoc; eauto.
Qed.

(** What a text merge that yields an entry has done: it asked for the
    write of a blob under the [dryRun] that [mergeBlobs] was given, the oid
    of the entry is the address of that blob, its mode is
    [ourMode ?? theirMode], and unless that [dryRun] is truthy the blob is
    in the store. *)
Lemma mergeBlobs_text_merge_entry
      (a : MergeBlobs.args) (w : World) (e : TreeEntry.t) :
  shortcut (MergeBlobs.path a) (MergeBlobs.ours a) (MergeBlobs.base a)
           (MergeBlobs.theirs a) = None ->
  fst (mergeBlobs a w) = Return (Some e) ->
  exists text,
    e = TreeEntry.mk (nullish (WalkerEntry.mode <$> MergeBlobs.ours a)
                              (WalkerEntry.mode <$> MergeBlobs.theirs a))
                     (MergeBlobs.path a) (hashObject (Blob text)) "blob" /\
    In (WriteObjectCalled (Blob text) (MergeBlobs.dryRun a))
       (trace (snd (mergeBlobs a w))) /\
    (truthy_flag (MergeBlobs.dryRun a) = false ->
     store (snd (mergeBlobs a w)) !! hashObject (Blob text)
     = Some (Blob text)).
Proof.
  intros Hcut. unfold mergeBlobs. rewrite Hcut.
  assert (Hwrite : forall text w1,
             fst (write_merged_blob hashObject a text w1) = Return (Some e) ->
             exists text0,
               e = TreeEntry.mk
                     (nullish (WalkerEntry.mode <$> MergeBlobs.ours a)
                              (WalkerEntry.mode <$> MergeBlobs.theirs a))
                     (MergeBlobs.path a) (hashObject (Blob text0)) "blob" /\
               In (WriteObjectCalled (Blob text0) (MergeBlobs.dryRun a))
                  (trace (snd (write_merged_blob hashObject a text w1))) /\
               (truthy_flag (MergeBlobs.dryRun a) = false ->
                store (snd (write_merged_blob hashObject a text w1))
                  !! hashObject (Blob text0)
                = Some (Blob text0))).
  { intros text w1. unfold write_merged_blob, bind, writeObject, ret.
    destruct (truthy_flag (MergeBlobs.dryRun a)) eqn:Hdry; simpl;
      intros [= <-]; exists text; (split; [reflexivity|]);
      (split; [apply in_or_app; right; left; reflexivity|]).
    - discriminate.
    - intros _. apply lookup_insert_eq. }
  unfold bind, callMergeFile.
  destruct (MergeFile.cleanMerge _).
  - unfold ret. apply Hwrite.
  - unfold resolve_conflict.
    destruct (conflict_fullpath _ _ _); [|discriminate].
    destruct (MergeBlobs.asyncMergeConflictCallback a) as [callback|];
      [|discriminate].
    destruct (callback _ _) as [text|message]; [|discriminate].
    destruct (truthy_text text) eqn:Htext; [|discriminate].
    destruct text as [text|]; [|discriminate].
    apply Hwrite.
Qed.

(** C7. When ours and theirs are blobs that both differ from the base blob
    but carry the same oid, and the three modes are known, the entry for
    the path has that oid and the merged mode, and nothing external is
    called: no text merge, no resolver, no write. *)
Theorem both_sides_identical_change
        (a : MergeTree.args) (filepath : string)
        (o b t : WalkerEntry.t) (w : World) :
  WalkerEntry.type o = "blob" ->
  WalkerEntry.type b = "blob" ->
  WalkerEntry.type t = "blob" ->
  modified (Some o) (Some b) = true ->
  modified (Some t) (Some b) = true ->
  WalkerEntry.oid o = WalkerEntry.oid t ->
  WalkerEntry.mode b <> 0%Z ->
  WalkerEntry.mode o <> 0%Z ->
  WalkerEntry.mode t <> 0%Z ->
  map a filepath (Some o) (Some b) (Some t) w
  = (Return
       (Some (TreeEntry.mk
                (Some (if (WalkerEntry.mode b =? WalkerEntry.mode o)%Z
                       then WalkerEntry.mode t else WalkerEntry.mode o))
                (basename filepath) (WalkerEntry.oid o) "blob")),
     w).
Proof.
  intros Ho Hb Ht Hours Htheirs Hoid Hmb Hmo Hmt.
  unfold map. rewrite Hours, Htheirs.
  unfold has_type. rewrite Ho, Hb, Ht. simpl.
  apply mergeBlobs_shortcut. simpl. unfold shortcut. simpl.
  apply Z.eqb_neq in Hmb, Hmo, Hmt. rewrite Hmb, Hmo, Hmt. simpl.
  apply string_eqb_true in Hoid. rewrite Hoid. reflexivity.
Qed.

(** Past the shortcut and after an unclean text merge, [mergeBlobs] is the
    resolver block followed by the write. *)
Lemma mergeBlobs_unclean (a : MergeBlobs.args) (w : World) :
  shortcut (MergeBlobs.path a) (MergeBlobs.ours a) (MergeBlobs.base a)
           (MergeBlobs.theirs a) = None ->
  MergeFile.cleanMerge (mergeFile (text_merge_call a)) = false ->
  mergeBlobs a w
  = bind (resolve_conflict a
            (MergeFile.mergedText (mergeFile (text_merge_call a))))
         (fun awaitedMergedText =>
            match awaitedMergedText with
            | None => ret None
            | Some text => write_merged_blob hashObject a text
            end)
         (emit (MergeFileCalled (text_merge_call a)) w).
Proof.
  intros Hcut Hclean. unfold mergeBlobs. rewrite Hcut.
  unfold bind at 1. unfold callMergeFile. rewrite Hclean. reflexivity.
Qed.

(** C8. When the text merge is not clean and the resolver returns an empty
    or falsy text, the result for the path is absent, the store is what it
    was, and no write was asked for: the text merger and the resolver are
    the only external calls. *)
Theorem resolver_returns_empty
        (a : MergeBlobs.args) (callback : ConflictResolver)
        (fullpath : string) (text : option string) (w : World) :
  shortcut (MergeBlobs.path a) (MergeBlobs.ours a) (MergeBlobs.base a)
           (MergeBlobs.theirs a) = None ->
  MergeFile.cleanMerge (mergeFile (text_merge_call a)) = false ->
  MergeBlobs.asyncMergeConflictCallback a = Some callback ->
  conflict_fullpath (MergeBlobs.ours a) (MergeBlobs.base a)
                    (MergeBlobs.theirs a) = Some fullpath ->
  callback (MergeFile.mergedText (mergeFile (text_merge_call a))) fullpath
  = Resolves text ->
  truthy_text text = false ->
  mergeBlobs a w
  = (Return None,
     mkWorld (store w)
             (trace w
              ++ [MergeFileCalled (text_merge_call a);
                  ResolverCalled
                    (MergeFile.mergedText (mergeFile (text_merge_call a)))
                    fullpath])).
Proof.
  intros Hcut Hclean Hcb Hpath Hres Htext.
  rewrite mergeBlobs_unclean by assumption.
  unfold bind, resolve_conflict. rewrite Hpath, Hcb, Hres, Htext.
  unfold ret, emit. simpl. rewrite <- app_assoc. reflexivity.
Qed.

(** When the resolver rejects with the message of a deliberate abort,
    [mergeBlobs] throws a [MergeAbortedError]; when it rejects with anything
    else, [mergeBlobs] throws a [MergeNotSupportedError]. Nothing is
    persisted on the way. *)
Theorem resolver_rejection
        (a : MergeBlobs.args) (callback : ConflictResolver)
        (fullpath : string) (message : option string) (w : World) :
  shortcut (MergeBlobs.path a) (MergeBlobs.ours a) (MergeBlobs.base a)
           (MergeBlobs.theirs a) = None ->
  MergeFile.cleanMerge (mergeFile (text_merge_call a)) = false ->
  MergeBlobs.asyncMergeConflictCallback a = Some callback ->
  conflict_fullpath (MergeBlobs.ours a) (MergeBlobs.base a)
                    (MergeBlobs.theirs a) = Some fullpath ->
  callback (MergeFile.mergedText (mergeFile (text_merge_call a))) fullpath
  = Rejects message ->
  (message = Some "Aborted merge" ->
   fst (mergeBlobs a w) = Throw MergeAbortedError /\
   fst (mergeBlobs a w) <> Throw MergeNotSupportedError) /\
  (message <> Some "Aborted merge" ->
   fst (mergeBlobs a w) = Throw MergeNotSupportedError) /\
  store (snd (mergeBlobs a w)) = store w.
Proof.
  intros Hcut Hclean Hcb Hpath Hrej.
  rewrite mergeBlobs_unclean by assumption.
  unfold bind, resolve_conflict. rewrite Hpath, Hcb, Hrej. simpl.
  refine (conj _ (conj _ eq_refl)).
  - intros ->. split; [reflexivity|discriminate].
  - intros Hother. unfold on_rejection.
    destruct message as [m|]; [|reflexivity].
    destruct (m =? "Aborted merge") eqn:Hm; [|reflexivity].
    apply string_eqb_true in Hm. subst m. contradiction Hother. reflexivity.
Qed.

(** *** The reducer *)

(** What [reduce] does to the world: nothing, or one write of a tree with
    at least one entry, under the [dryRun] of [mergeTree]. *)
Lemma reduce_world (a : MergeTree.args) (parent : option TreeEntry.t)
      (children : list (option TreeEntry.t)) (w : World) :
  snd (reduce a parent children w) = w \/
  exists entries,
    entries <> [] /\
    snd (reduce a parent children w)
    = snd (writeObject hashObject (Tree entries)
                       (Some (MergeTree.dryRun' a)) w).
Proof.
  unfold reduce.
  destruct parent as [p|]; [|left; reflexivity].
  destruct (filter_Boolean children) as [|e entries] eqn:Hentries.
  - simpl. destruct (TreeEntry.type p =? "tree"); left; reflexivity.
  - simpl. rewrite andb_false_r. right. exists (e :: entries).
    split; [discriminate|reflexivity].
Qed.

(** C4. In every reduction: an absent parent gives an absent subtree
    whatever the children are; a parent of type tree none of whose children
    survives becomes absent with the world untouched; and [reduce] never
    asks for the write of an empty tree nor leaves one in the store, also
    for a directory that had content before. *)
Theorem reduce_prunes
        (a : MergeTree.args) (parent : option TreeEntry.t)
        (children : list (option TreeEntry.t)) (w : World) :
  (parent = None -> reduce a parent children w = (Return None, w)) /\
  (forall p,
      parent = Some p ->
      TreeEntry.type p = "tree" ->
      filter_Boolean children = [] ->
      reduce a parent children w = (Return None, w)) /\
  (forall o,
      store (snd (reduce a parent children w)) !! o = Some (Tree []) ->
      store w !! o = Some (Tree [])) /\
  (forall object dryRun,
      In (WriteObjectCalled object dryRun)
         (trace (snd (reduce a parent children w))) ->
      In (WriteObjectCalled object dryRun) (trace w) \/
      exists entries, entries <> [] /\ object = Tree entries).
Proof.
  split; [|split; [|split]].
  - intros ->. reflexivity.
  - intros p -> Htype Hnone. unfold reduce.
    rewrite Hnone, Htype. reflexivity.
  - intros o.
    destruct (reduce_world a parent children w)
      as [-> | (entries & Hne & ->)]; [auto|].
    unfold writeObject. destruct (truthy_flag _); simpl; [auto|].
    destruct (decide (hashObject (Tree entries) = o)) as [<- | Hother].
    + rewrite lookup_insert_eq. intros [= ->]. contradiction Hne. reflexivity.
    + rewrite lookup_insert_ne by assumption. auto.
  - intros object dryRun.
    destruct (reduce_world a parent children w)
      as [-> | (entries & Hne & ->)]; [auto|].
    unfold writeObject.
    assert (Hin : In (WriteObjectCalled object dryRun)
                     (trace w ++ [WriteObjectCalled (Tree entries)
                                    (Some (MergeTree.dryRun' a))]) ->
                  In (WriteObjectCalled object dryRun) (trace w) \/
                  exists entries0, entries0 <> [] /\ object = Tree entries0).
    { intros Hin. apply in_app_or in Hin as [Hold | [[= <- <-] | []]];
        [left; assumption | right; eauto]. }
    destruct (truthy_flag _); simpl; exact Hin.
Qed.

(** *** The whole walk *)

(** A property of computations that holds of [map] and [reduce] and is
    closed under sequencing holds of the walk. *)
Lemma walk_closure
      (P : forall A, Async A -> Prop) (a : MergeTree.args) :
  (forall A (x : A), P A (ret x)) ->
  (forall A B (m : Async A) (k : A -> Async B),
      P A m -> (forall x, P B (k x)) -> P B (bind m k)) ->
  (forall filepath ours base theirs,
      P _ (map a filepath ours base theirs)) ->
  (forall parent children, P _ (reduce a parent children)) ->
  forall node, P _ (_walk basename mergeFile hashObject a node).
Proof.
  intros Hret Hbind Hmap Hreduce.
  fix IH 1. intros [filepath ours base theirs children]. simpl.
  apply Hbind; [apply Hmap|]. intros parent.
  apply Hbind; [|intros; apply Hreduce].
  induction children as [|child rest IHrest].
  - apply Hret.
  - apply Hbind; [apply IH|]. intros r.
    apply Hbind; [apply IHrest|]. intros rs. apply Hret.
Qed.

Lemma no_empty_tree_written_refl (w : World) : no_empty_tree_written w w.
Proof. split; auto. Qed.

Lemma no_empty_tree_written_trans (w1 w2 w3 : World) :
  no_empty_tree_written w1 w2 -> no_empty_tree_written w2 w3 ->
  no_empty_tree_written w1 w3.
Proof. intros [H1 H1'] [H2 H2']. split; auto. Qed.

Lemma keeps_bind {A B} (m : Async A) (k : A -> Async B) :
  keeps no_empty_tree_written m ->
  (forall x, keeps no_empty_tree_written (k x)) ->
  keeps no_empty_tree_written (bind m k).
Proof.
  intros Hm Hk w. unfold bind. specialize (Hm w).
  destruct (m w) as [[x|e] w1]; simpl in *; [|assumption].
  eapply no_empty_tree_written_trans; [eassumption|apply Hk].
Qed.

Lemma keeps_emit (ev : Event) (w : World) :
  (forall dryRun, ev <> WriteObjectCalled (Tree []) dryRun) ->
  no_empty_tree_written w (emit ev w).
Proof.
  intros Hev. split; [auto|]. simpl. intros dryRun Hin.
  apply in_app_or in Hin as [Hold | [Heq | []]]; [assumption|].
  contradiction (Hev dryRun).
Qed.

Lemma keeps_writeObject (object : GitObject) (dryRun : option bool) :
  object <> Tree [] ->
  keeps no_empty_tree_written (writeObject hashObject object dryRun).
Proof.
  intros Hobject w. unfold writeObject.
  assert (Hemit : no_empty_tree_written
                    w (emit (WriteObjectCalled object dryRun) w)).
  { apply keeps_emit. intros d [= H _]. contradiction. }
  destruct (truthy_flag dryRun); simpl; [assumption|].
  destruct Hemit as [_ Htrace]. split; [|exact Htrace].
  simpl. intros o.
  destruct (decide (hashObject object = o)) as [<- | Hother].
  - rewrite lookup_insert_eq. intros [= ->]. contradiction.
  - rewrite lookup_insert_ne by assumption. auto.
Qed.

Lemma keeps_mergeBlobs (a : MergeBlobs.args) :
  keeps no_empty_tree_written (mergeBlobs a).
Proof.
  unfold mergeBlobs.
  destruct (shortcut _ _ _ _); [intros w; apply no_empty_tree_written_refl|].
  apply keeps_bind.
  { intros w. apply keeps_emit. discriminate. }
  intros r. apply keeps_bind.
  - destruct (MergeFile.cleanMerge r);
      [intros w; apply no_empty_tree_written_refl|].
    unfold resolve_conflict.
    destruct (conflict_fullpath _ _ _);
      [|intros w; apply no_empty_tree_written_refl].
    destruct (MergeBlobs.asyncMergeConflictCallback a) as [callback|];
      [|intros w; apply no_empty_tree_written_refl].
    intros w.
    destruct (callback _ _) as [text|message];
      [destruct (truthy_text text)|]; apply keeps_emit; discriminate.
  - intros [text|]; [|intros w; apply no_empty_tree_written_refl].
    apply keeps_bind; [apply keeps_writeObject; discriminate|].
    intros oid w. apply no_empty_tree_written_refl.
Qed.

Lemma keeps_map (a : MergeTree.args) (filepath : string)
      (ours base theirs : option WalkerEntry.t) :
  keeps no_empty_tree_written (map a filepath ours base theirs).
Proof.
  unfold map, added_on_both_sides, type_of.
  repeat match goal with
         | |- keeps _ (mergeBlobs _) => apply keeps_mergeBlobs
         | |- keeps _ (ret _) => intros w; apply no_empty_tree_written_refl
         | |- keeps _ (throw _) => intros w; apply no_empty_tree_written_refl
         | |- keeps _ (bind _ _) => apply keeps_bind; [|intros ?]
         | |- keeps _ (match ?x with _ => _ end) => destruct x
         end.
Qed.

Lemma keeps_reduce (a : MergeTree.args) (parent : option TreeEntry.t)
      (children : list (option TreeEntry.t)) :
  keeps no_empty_tree_written (reduce a parent children).
Proof.
  intros w.
  destruct (reduce_world a parent children w)
    as [-> | (entries & Hne & ->)]; [apply no_empty_tree_written_refl|].
  apply keeps_writeObject. intros [= ->]. contradiction.
Qed.

(** X21. No run of [mergeTree], dry or not, failing or not, puts an empty
    tree in the store or asks for one to be written. *)
Lemma mergeTree_writes_no_empty_tree (a : MergeTree.args) (root : TripleTree) :
  keeps no_empty_tree_written (mergeTree a root).
Proof.
  unfold mergeTree. apply keeps_bind.
  - apply (walk_closure (fun A => keeps no_empty_tree_written)).
    + intros A x w. apply no_empty_tree_written_refl.
    + intros A B. apply keeps_bind.
    + apply keeps_map.
    + apply keeps_reduce.
  - intros [r|] w; apply no_empty_tree_written_refl.
Qed.

Lemma oblivious_ret {A} (x : A) : oblivious (ret x).
Proof. intros w w'. reflexivity. Qed.

Lemma oblivious_throw {A} (e : JsError) : oblivious (@throw A e).
Proof. intros w w'. reflexivity. Qed.

Lemma oblivious_bind {A B} (m : Async A) (k : A -> Async B) :
  oblivious m -> (forall x, oblivious (k x)) -> oblivious (bind m k).
Proof.
  intros Hm Hk w w'. unfold bind. specialize (Hm w w').
  destruct (m w) as [[x|e] w1], (m w') as [[x'|e'] w1']; simpl in *;
    try discriminate.
  - injection Hm as <-. apply Hk.
  - injection Hm as <-. reflexivity.
Qed.

Lemma oblivious_mergeBlobs (a : MergeBlobs.args) : oblivious (mergeBlobs a).
Proof.
  unfold mergeBlobs.
  destruct (shortcut _ _ _ _); [apply oblivious_ret|].
  apply oblivious_bind; [intros w w'; reflexivity|].
  intros r. apply oblivious_bind.
  - destruct (MergeFile.cleanMerge r); [apply oblivious_ret|].
    unfold resolve_conflict.
    destruct (conflict_fullpath _ _ _); [|apply oblivious_throw].
    destruct (MergeBlobs.asyncMergeConflictCallback a) as [callback|];
      [|apply oblivious_throw].
    intros w w'.
    destruct (callback _ _) as [text|message];
      [destruct (truthy_text text)|]; reflexivity.
  - intros [text|]; [|apply oblivious_ret].
    apply oblivious_bind; [|intros oid; apply oblivious_ret].
    intros w w'. unfold writeObject.
    destruct (truthy_flag _); reflexivity.
Qed.

Lemma oblivious_map (a : MergeTree.args) (filepath : string)
      (ours base theirs : option WalkerEntry.t) :
  oblivious (map a filepath ours base theirs).
Proof.
  unfold map, added_on_both_sides, type_of.
  repeat match goal with
         | |- oblivious (mergeBlobs _) => apply oblivious_mergeBlobs
         | |- oblivious (ret _) => apply oblivious_ret
         | |- oblivious (throw _) => apply oblivious_throw
         | |- oblivious (bind _ _) => apply oblivious_bind; [|intros ?]
         | |- oblivious (match ?x with _ => _ end) => destruct x
         end.
Qed.

Lemma oblivious_reduce (a : MergeTree.args) (parent : option TreeEntry.t)
      (children : list (option TreeEntry.t)) :
  oblivious (reduce a parent children).
Proof.
  unfold reduce.
  destruct parent as [p|]; [|apply oblivious_ret].
  destruct (_ && _); [apply oblivious_ret|].
  destruct (_ <? _)%nat; [|apply oblivious_ret].
  apply oblivious_bind; [|intros oid; apply oblivious_ret].
  intros w w'. unfold writeObject. destruct (truthy_flag _); reflexivity.
Qed.

(** The outcome of [mergeTree] (the oid of the merged tree, or the error)
    is a function of the call and of the trees alone: what the store
    holds, for instance after an earlier run, does not change it. *)
Lemma mergeTree_oblivious (a : MergeTree.args) (root : TripleTree) :
  oblivious (mergeTree a root).
Proof.
  unfold mergeTree. apply oblivious_bind.
  - apply (walk_closure (@oblivious)).
    + intros A. apply oblivious_ret.
    + intros A B. apply oblivious_bind.
    + apply oblivious_map.
    + apply oblivious_reduce.
  - intros [r|]; [apply oblivious_ret | apply oblivious_throw].
Qed.

(** *** What [map] hands to [mergeBlobs] *)

(** [map] does not read [dryRun]: the per-path decision of a dry run is that
    of a real run, writes included. *)
Lemma map_ignores_dryRun
      (ourName baseName theirName : option string) (d d' : option bool)
      (callback : option ConflictResolver) (filepath : string)
      (ours base theirs : option WalkerEntry.t) (w : World) :
  map (MergeTree.mk ourName baseName theirName d callback)
      filepath ours base theirs w
  = map (MergeTree.mk ourName baseName theirName d' callback)
        filepath ours base theirs w.
Proof. reflexivity. Qed.

(** In the three-way case the base label of [mergeTree] reaches the text
    merger. *)
Lemma base_label_three_way
      (a : MergeTree.args) (path : string)
      (ours base theirs : option WalkerEntry.t) :
  MergeFile.baseName (text_merge_call (blobs_args_three_way a path ours base theirs))
  = Some (MergeTree.baseName' a).
Proof. reflexivity. Qed.

(** In the other three calls it does not: the base label is [undefined]. *)
Lemma base_label_other
      (a : MergeTree.args) (path : string)
      (ours base theirs : option WalkerEntry.t) :
  MergeFile.baseName (text_merge_call (blobs_args_other a path ours base theirs))
  = None.
Proof. reflexivity. Qed.


(** *** More on the change detector *)

(** X1. [modified] does not depend on which of the two entries is called
    the base. *)
Theorem modified_symmetric (x y : option WalkerEntry.t) :
  modified x y = modified y x.
Proof.
  destruct x as [e|], y as [b|]; simpl; try reflexivity.
  rewrite (andb_comm (WalkerEntry.type e =? "tree")).
  rewrite (String.eqb_sym (WalkerEntry.type e) (WalkerEntry.type b)).
  rewrite (Z.eqb_sym (WalkerEntry.mode e) (WalkerEntry.mode b)).
  rewrite (String.eqb_sym (WalkerEntry.oid e) (WalkerEntry.oid b)).
  reflexivity.
Qed.

(** Being unmodified is transitive. *)
Lemma unmodified_trans (x y z : option WalkerEntry.t) :
  modified x y = false -> modified y z = false -> modified x z = false.
Proof.
  destruct x as [e|], y as [b|], z as [c|]; try discriminate;
    try reflexivity.
  rewrite !unmodified_present.
  intros [[He Hb] | (Ht & Hm & Ho)] [[Hb' Hc] | (Ht' & Hm' & Ho')].
  - auto.
  - left. split; congruence.
  - left. split; congruence.
  - right. repeat split; congruence.
Qed.

Lemma unmodified_sym (x y : option WalkerEntry.t) :
  modified x y = false -> modified y x = false.
Proof.
  destruct x as [e|], y as [b|]; try discriminate; try reflexivity.
  rewrite !unmodified_present.
  intros [[He Hb] | (Ht & Hm & Ho)]; [left | right]; auto.
Qed.

(** X2. When neither side is modified with respect to the base, the two
    sides are not modified with respect to each other: passing the base
    through (the ['false-false'] case) loses nothing of either side. *)
Theorem unmodified_sides_agree (ours base theirs : option WalkerEntry.t) :
  modified ours base = false ->
  modified theirs base = false ->
  modified ours theirs = false.
Proof.
  intros Hours Htheirs. apply (unmodified_trans ours base theirs Hours).
  apply unmodified_sym. exact Htheirs.
Qed.

(** X3. When one side is not modified with respect to the base and the
    other is, the other is modified with respect to the first as well:
    the side that the ['false-true'] and ['true-false'] cases take is a
    change for the side they drop. *)
Theorem single_side_change_differs (kept changed base : option WalkerEntry.t) :
  modified kept base = false ->
  modified changed base = true ->
  modified changed kept = true.
Proof.
  intros Hkept Hchanged.
  destruct (modified changed kept) eqn:Hagree; [reflexivity|].
  rewrite (unmodified_trans changed kept base Hagree Hkept) in Hchanged.
  discriminate.
Qed.

(** *** More on the blob merger *)

(** What the final write does. *)
Lemma write_merged_blob_eq (a : MergeBlobs.args) (text : string) (w : World) :
  write_merged_blob hashObject a text w
  = (Return (Some (TreeEntry.mk
                     (nullish (WalkerEntry.mode <$> MergeBlobs.ours a)
                              (WalkerEntry.mode <$> MergeBlobs.theirs a))
                     (MergeBlobs.path a) (hashObject (Blob text)) "blob")),
     let w1 := emit (WriteObjectCalled (Blob text) (MergeBlobs.dryRun a)) w in
     if truthy_flag (MergeBlobs.dryRun a) then w1
     else persist (hashObject (Blob text)) (Blob text) w1).
Proof.
  unfold write_merged_blob, bind, writeObject, ret.
  destruct (truthy_flag _); reflexivity.
Qed.

(** A [return] from the shortcut block needs the three sides and carries
    the oid of ours or of theirs. *)
Lemma shortcut_entry (path : string) (ours base theirs : option WalkerEntry.t)
      (e : TreeEntry.t) :
  shortcut path ours base theirs = Some e ->
  exists o b t,
    ours = Some o /\ base = Some b /\ theirs = Some t /\
    TreeEntry.path e = path /\ TreeEntry.type e = "blob" /\
    TreeEntry.mode e
    = Some (if (WalkerEntry.mode b =? WalkerEntry.mode o)%Z
            then WalkerEntry.mode t else WalkerEntry.mode o) /\
    (TreeEntry.oid e = WalkerEntry.oid o \/
     TreeEntry.oid e = WalkerEntry.oid t).
Proof.
  unfold shortcut. destruct (_ && _); [|discriminate].
  destruct base as [b|], ours as [o|], theirs as [t|]; try discriminate.
  intros H. exists o, b, t.
  repeat (destruct (_ =? _) in H;
          [injection H as <-; simpl; auto 10|]).
  discriminate.
Qed.

(** X4. An entry that [mergeBlobs] returns is a blob at the path it was
    given, and its mode is the mode of ours or the mode of theirs: a merged
    mode is inherited from a side, never made up and never taken from the
    base. *)
Theorem mergeBlobs_entry_inherits
        (a : MergeBlobs.args) (w : World) (e : TreeEntry.t) :
  fst (mergeBlobs a w) = Return (Some e) ->
  TreeEntry.type e = "blob" /\
  TreeEntry.path e = MergeBlobs.path a /\
  (TreeEntry.mode e = WalkerEntry.mode <$> MergeBlobs.ours a \/
   TreeEntry.mode e = WalkerEntry.mode <$> MergeBlobs.theirs a).
Proof.
  destruct (shortcut (MergeBlobs.path a) (MergeBlobs.ours a)
                     (MergeBlobs.base a) (MergeBlobs.theirs a))
    as [e'|] eqn:Hcut.
  - rewrite (mergeBlobs_shortcut a e' w Hcut). intros [= <-].
    destruct (shortcut_entry _ _ _ _ _ Hcut)
      as (o & b & t & -> & _ & -> & Hpath & Htype & Hmode & _).
    repeat split; [assumption..|].
    rewrite Hmode. simpl. destruct (_ =? _)%Z; auto.
  - intros Hret.
    destruct (mergeBlobs_text_merge_entry a w e Hcut Hret)
      as (text & -> & _).
    simpl. repeat split.
    destruct (MergeBlobs.ours a); simpl; auto.
Qed.

(** X5. [mergeBlobs] throws only after a text merge that was not clean,
    and what it throws is [MergeNotSupportedError] or [MergeAbortedError],
    the latter only when a resolver was called and rejected with the
    message ["Aborted merge"]. *)
Theorem mergeBlobs_throws_only_on_conflict
        (a : MergeBlobs.args) (w : World) (e : JsError) :
  fst (mergeBlobs a w) = Throw e ->
  shortcut (MergeBlobs.path a) (MergeBlobs.ours a) (MergeBlobs.base a)
           (MergeBlobs.theirs a) = None /\
  MergeFile.cleanMerge (mergeFile (text_merge_call a)) = false /\
  (e = MergeNotSupportedError \/
   e = MergeAbortedError /\
   exists callback fullpath,
     MergeBlobs.asyncMergeConflictCallback a = Some callback /\
     callback (MergeFile.mergedText (mergeFile (text_merge_call a))) fullpath
     = Rejects (Some "Aborted merge")).
Proof.
  unfold mergeBlobs.
  destruct (shortcut _ _ _ _); [discriminate|].
  unfold bind, callMergeFile.
  destruct (MergeFile.cleanMerge _) eqn:Hclean.
  - unfold ret. rewrite write_merged_blob_eq. discriminate.
  - unfold resolve_conflict.
    destruct (conflict_fullpath _ _ _) as [fullpath|];
      [|intros [= <-]; auto].
    destruct (MergeBlobs.asyncMergeConflictCallback a) as [callback|];
      [|intros [= <-]; auto].
    destruct (callback _ _) as [text|message] eqn:Hcall.
    + destruct (truthy_text text); [|discriminate].
      destruct text as [text|]; [|discriminate].
      rewrite write_merged_blob_eq. discriminate.
    + intros [= <-]. repeat split.
      unfold on_rejection. destruct message as [m|]; [|auto].
      destruct (String.eqb_spec m "Aborted merge") as [-> | _]; [|auto].
      right. split; [reflexivity|]. exists callback, fullpath. auto.
Qed.

(** X6. A clean text merge never consults the resolver: the merged text is
    written as it is, also when it is empty, and the entry carries the
    address of that text. The blob is persisted unless the [dryRun] given
    to [mergeBlobs] is truthy. *)
Theorem clean_merge_skips_resolver (a : MergeBlobs.args) (w : World) :
  shortcut (MergeBlobs.path a) (MergeBlobs.ours a) (MergeBlobs.base a)
           (MergeBlobs.theirs a) = None ->
  MergeFile.cleanMerge (mergeFile (text_merge_call a)) = true ->
  let text := MergeFile.mergedText (mergeFile (text_merge_call a)) in
  mergeBlobs a w
  = (Return (Some (TreeEntry.mk
                     (nullish (WalkerEntry.mode <$> MergeBlobs.ours a)
                              (WalkerEntry.mode <$> MergeBlobs.theirs a))
                     (MergeBlobs.path a) (hashObject (Blob text)) "blob")),
     let w1 :=
       mkWorld (store w)
               (trace w
                ++ [MergeFileCalled (text_merge_call a);
                    WriteObjectCalled (Blob text) (MergeBlobs.dryRun a)]) in
     if truthy_flag (MergeBlobs.dryRun a) then w1
     else persist (hashObject (Blob text)) (Blob text) w1).
Proof.
  intros Hcut Hclean text. unfold mergeBlobs. rewrite Hcut.
  unfold bind, callMergeFile. rewrite Hclean. unfold ret.
  rewrite write_merged_blob_eq. unfold emit, persist. simpl.
  rewrite <- app_assoc. reflexivity.
Qed.

(** X7. After an unclean text merge, a non-empty text from the resolver is
    what gets written: the calls are the text merger, the resolver and one
    write of that text, in this order, and the entry carries the address of
    that text. *)
Theorem resolver_text_is_written
        (a : MergeBlobs.args) (callback : ConflictResolver)
        (fullpath text : string) (w : World) :
  shortcut (MergeBlobs.path a) (MergeBlobs.ours a) (MergeBlobs.base a)
           (MergeBlobs.theirs a) = None ->
  MergeFile.cleanMerge (mergeFile (text_merge_call a)) = false ->
  MergeBlobs.asyncMergeConflictCallback a = Some callback ->
  conflict_fullpath (MergeBlobs.ours a) (MergeBlobs.base a)
                    (MergeBlobs.theirs a) = Some fullpath ->
  callback (MergeFile.mergedText (mergeFile (text_merge_call a))) fullpath
  = Resolves (Some text) ->
  text <> "" ->
  mergeBlobs a w
  = (Return (Some (TreeEntry.mk
                     (nullish (WalkerEntry.mode <$> MergeBlobs.ours a)
                              (WalkerEntry.mode <$> MergeBlobs.theirs a))
                     (MergeBlobs.path a) (hashObject (Blob text)) "blob")),
     let w1 :=
       mkWorld (store w)
               (trace w
                ++ [MergeFileCalled (text_merge_call a);
                    ResolverCalled
                      (MergeFile.mergedText (mergeFile (text_merge_call a)))
                      fullpath;
                    WriteObjectCalled (Blob text) (MergeBlobs.dryRun a)]) in
     if truthy_flag (MergeBlobs.dryRun a) then w1
     else persist (hashObject (Blob text)) (Blob text) w1).
Proof.
  intros Hcut Hclean Hcb Hpath Hres Htext.
  rewrite mergeBlobs_unclean by assumption.
  unfold bind, resolve_conflict. rewrite Hpath, Hcb, Hres.
  assert (Htruthy : truthy_text (Some text) = true).
  { simpl. destruct (String.eqb_spec text ""); [contradiction|reflexivity]. }
  rewrite Htruthy, write_merged_blob_eq. unfold emit, persist. simpl.
  rewrite <- !app_assoc. reflexivity.
Qed.

(** X8. Without a resolver, an unclean text merge fails with
    [MergeNotSupportedError]: the text merger is the only call and the
    store is what it was. *)
Theorem conflict_without_resolver_fails (a : MergeBlobs.args) (w : World) :
  shortcut (MergeBlobs.path a) (MergeBlobs.ours a) (MergeBlobs.base a)
           (MergeBlobs.theirs a) = None ->
  MergeFile.cleanMerge (mergeFile (text_merge_call a)) = false ->
  MergeBlobs.asyncMergeConflictCallback a = None ->
  mergeBlobs a w
  = (Throw MergeNotSupportedError,
     mkWorld (store w) (trace w ++ [MergeFileCalled (text_merge_call a)])).
Proof.
  intros Hcut Hclean Hcb.
  rewrite mergeBlobs_unclean by assumption.
  unfold bind, resolve_conflict. rewrite Hcb.
  destruct (conflict_fullpath _ _ _); reflexivity.
Qed.

Local Ltac pick_shape :=
  first [left; reflexivity | right; eexists; reflexivity].

(** X9. [mergeBlobs] calls each collaborator at most once and in a fixed
    order: nothing at all, or the text merger, then possibly the resolver,
    then possibly one write of a blob under the [dryRun] it was given. *)
Theorem mergeBlobs_calls_in_order (a : MergeBlobs.args) (w : World) :
  snd (mergeBlobs a w) = w \/
  exists resolved written,
    trace (snd (mergeBlobs a w))
    = (trace w ++ MergeFileCalled (text_merge_call a)
               :: resolved ++ written)%list /\
    (resolved = [] \/
     exists fullpath,
       resolved
       = [ResolverCalled
            (MergeFile.mergedText (mergeFile (text_merge_call a)))
            fullpath]) /\
    (written = [] \/
     exists text,
       written = [WriteObjectCalled (Blob text) (MergeBlobs.dryRun a)]).
Proof.
  unfold mergeBlobs.
  destruct (shortcut _ _ _ _); [left; reflexivity|]. right.
  unfold bind, callMergeFile.
  destruct (MergeFile.cleanMerge _).
  - unfold ret. rewrite write_merged_blob_eq.
    exists [], [WriteObjectCalled
                  (Blob (MergeFile.mergedText (mergeFile (text_merge_call a))))
                  (MergeBlobs.dryRun a)].
    split; [|split; pick_shape].
    destruct (truthy_flag _); simpl; rewrite <- app_assoc; reflexivity.
  - unfold resolve_conflict.
    destruct (conflict_fullpath _ _ _) as [fullpath|];
      [|exists [], []; simpl; auto].
    destruct (MergeBlobs.asyncMergeConflictCallback a) as [callback|];
      [|exists [], []; simpl; auto].
    destruct (callback _ _) as [text|message].
    + destruct (truthy_text text) eqn:Htext.
      * destruct text as [text|]; [|discriminate].
        rewrite write_merged_blob_eq.
        exists [ResolverCalled
                  (MergeFile.mergedText (mergeFile (text_merge_call a)))
                  fullpath],
               [WriteObjectCalled (Blob text) (MergeBlobs.dryRun a)].
        split; [|split; pick_shape].
        destruct (truthy_flag _); simpl; rewrite <- !app_assoc; reflexivity.
      * exists [ResolverCalled
                  (MergeFile.mergedText (mergeFile (text_merge_call a)))
                  fullpath], [].
        split; [|split; pick_shape]. simpl. rewrite <- app_assoc. reflexivity.
    + exists [ResolverCalled
                (MergeFile.mergedText (mergeFile (text_merge_call a)))
                fullpath], [].
      split; [|split; pick_shape]. simpl. rewrite <- app_assoc. reflexivity.
Qed.

(** *** More on the per-path decision *)

Lemma mergeBlobs_never_TypeError (a : MergeBlobs.args) (w : World) :
  fst (mergeBlobs a w) <> Throw TypeError.
Proof.
  unfold mergeBlobs.
  destruct (shortcut _ _ _ _); [discriminate|].
  unfold bind, callMergeFile.
  destruct (MergeFile.cleanMerge _).
  - unfold ret. rewrite write_merged_blob_eq. discriminate.
  - unfold resolve_conflict.
    destruct (conflict_fullpath _ _ _); [|discriminate].
    destruct (MergeBlobs.asyncMergeConflictCallback a) as [callback|];
      [|discriminate].
    destruct (callback _ _) as [text|message].
    + destruct (truthy_text text); [|discriminate].
      destruct text as [text|]; [|discriminate].
      rewrite write_merged_blob_eq. discriminate.
    + simpl. unfold on_rejection.
      destruct message as [m|]; [destruct (m =? _)|]; discriminate.
Qed.

(** X10. On a triple the walker visits (at least one side is present)
    [map] never dereferences [null]: it returns, or it throws
    [MergeAbortedError] or [MergeNotSupportedError], never a [TypeError]. *)
Theorem map_never_TypeError
        (a : MergeTree.args) (filepath : string)
        (ours base theirs : option WalkerEntry.t) (w : World) :
  present ours || present base || present theirs = true ->
  fst (map a filepath ours base theirs w) <> Throw TypeError.
Proof.
  intros Hvisited. unfold map.
  destruct (modified ours base) eqn:Hours;
    destruct (modified theirs base) eqn:Htheirs.
  - destruct ours as [o|], base as [b|], theirs as [t|];
      try discriminate Hours; try discriminate Htheirs;
      unfold added_on_both_sides, type_of, bind, ret, throw; simpl;
      repeat match goal with
             | |- context [if ?c then _ else _] => destruct c; simpl
             end;
      first [apply mergeBlobs_never_TypeError | discriminate].
  - discriminate.
  - discriminate.
  - destruct (unmodified_both_sides _ _ _ Hours Htheirs)
      as [Hbase | (-> & -> & ->)]; [|discriminate Hvisited].
    destruct base; [discriminate|discriminate Hbase].
Qed.

Lemma mergeBlobs_entry_path
      (a : MergeBlobs.args) (w : World) (e : TreeEntry.t) :
  fst (mergeBlobs a w) = Return (Some e) ->
  TreeEntry.path e = MergeBlobs.path a /\ TreeEntry.type e = "blob".
Proof.
  destruct (shortcut (MergeBlobs.path a) (MergeBlobs.ours a)
                     (MergeBlobs.base a) (MergeBlobs.theirs a))
    as [e'|] eqn:Hcut.
  - rewrite (mergeBlobs_shortcut a e' w Hcut). intros [= <-].
    destruct (shortcut_entry _ _ _ _ _ Hcut)
      as (o & b & t & _ & _ & _ & Hpath & Htype & _).
    auto.
  - intros Hret.
    destruct (mergeBlobs_text_merge_entry a w e Hcut Hret) as (text & -> & _).
    auto.
Qed.

(** X11. An entry that [map] returns is named by the basename of the path
    the walker handed over, and its type is the type of one of the sides
    that are present: [map] renames nothing and invents no type. *)
Theorem map_entry_named_and_typed
        (a : MergeTree.args) (filepath : string)
        (ours base theirs : option WalkerEntry.t) (w : World)
        (e : TreeEntry.t) :
  fst (map a filepath ours base theirs w) = Return (Some e) ->
  TreeEntry.path e = basename filepath /\
  exists x,
    (ours = Some x \/ base = Some x \/ theirs = Some x) /\
    TreeEntry.type e = WalkerEntry.type x.
Proof.
  unfold map.
  destruct (modified ours base) eqn:Hours;
    destruct (modified theirs base) eqn:Htheirs;
    destruct ours as [o|], base as [b|], theirs as [t|];
    try discriminate Hours; try discriminate Htheirs;
    unfold added_on_both_sides, type_of, bind, ret, throw; simpl;
    repeat match goal with
           | |- context [WalkerEntry.type ?x =? ?k] =>
               destruct (String.eqb_spec (WalkerEntry.type x) k); simpl
           end;
    try discriminate.
  all: first
         [ intros [= <-]; simpl; split; [reflexivity|];
           eexists; (split; [|reflexivity]); auto
         | intros Hret;
           destruct (mergeBlobs_entry_path _ _ _ Hret) as [Hpath Htype];
           split; [exact Hpath|]; rewrite Htype;
           eexists; (split; [|symmetry; eassumption]); auto ].
Qed.

(** Two blobs that differ in mode or in oid are modified. *)
Lemma blobs_modified (e b : WalkerEntry.t) :
  WalkerEntry.type e = "blob" ->
  WalkerEntry.mode e <> WalkerEntry.mode b \/
  WalkerEntry.oid e <> WalkerEntry.oid b ->
  modified (Some e) (Some b) = true.
Proof.
  intros Hblob Hdiff.
  destruct (modified (Some e) (Some b)) eqn:Hmod; [reflexivity|].
  apply unmodified_present in Hmod as [[He _] | (_ & Hm & Ho)].
  - rewrite Hblob in He. discriminate He.
  - destruct Hdiff; contradiction.
Qed.

(** X12. A change of mode on one side and a change of content on the other
    merge without the text merger and without a write: when ours only
    changed the mode, the entry has ours' mode and theirs' oid; when theirs
    only changed the mode and ours kept it, the entry has theirs' mode and
    ours' oid. *)
Theorem mode_change_meets_content_change
        (a : MergeTree.args) (filepath : string)
        (o b t : WalkerEntry.t) (w : World) :
  WalkerEntry.type o = "blob" ->
  WalkerEntry.type b = "blob" ->
  WalkerEntry.type t = "blob" ->
  WalkerEntry.mode b <> 0%Z ->
  WalkerEntry.mode o <> 0%Z ->
  WalkerEntry.mode t <> 0%Z ->
  (WalkerEntry.oid o = WalkerEntry.oid b ->
   WalkerEntry.mode o <> WalkerEntry.mode b ->
   WalkerEntry.oid t <> WalkerEntry.oid b ->
   map a filepath (Some o) (Some b) (Some t) w
   = (Return (Some (TreeEntry.mk (Some (WalkerEntry.mode o))
                                 (basename filepath)
                                 (WalkerEntry.oid t) "blob")), w)) /\
  (WalkerEntry.oid t = WalkerEntry.oid b ->
   WalkerEntry.mode t <> WalkerEntry.mode b ->
   WalkerEntry.oid o <> WalkerEntry.oid b ->
   WalkerEntry.mode o = WalkerEntry.mode b ->
   map a filepath (Some o) (Some b) (Some t) w
   = (Return (Some (TreeEntry.mk (Some (WalkerEntry.mode t))
                                 (basename filepath)
                                 (WalkerEntry.oid o) "blob")), w)).
Proof.
  intros Ho Hb Ht Hmb Hmo Hmt.
  apply Z.eqb_neq in Hmb, Hmo, Hmt.
  split.
  - intros Hsame Hmode Hoid.
    unfold map.
    rewrite (blobs_modified o b Ho (or_introl Hmode)).
    rewrite (blobs_modified t b Ht (or_intror Hoid)).
    unfold has_type. rewrite Ho, Hb, Ht. simpl.
    apply mergeBlobs_shortcut. simpl. unfold shortcut. simpl.
    rewrite Hmb, Hmo, Hmt. simpl.
    rewrite Hsame.
    destruct (String.eqb_spec (WalkerEntry.oid b) (WalkerEntry.oid t))
      as [Heq|_]; [symmetry in Heq; contradiction|].
    rewrite String.eqb_refl.
    destruct (Z.eqb_spec (WalkerEntry.mode b) (WalkerEntry.mode o))
      as [Heq|_]; [symmetry in Heq; contradiction|].
    reflexivity.
  - intros Hsame Hmode Hoid Hkept.
    unfold map.
    rewrite (blobs_modified o b Ho (or_intror Hoid)).
    rewrite (blobs_modified t b Ht (or_introl Hmode)).
    unfold has_type. rewrite Ho, Hb, Ht. simpl.
    apply mergeBlobs_shortcut. simpl. unfold shortcut. simpl.
    rewrite Hmb, Hmo, Hmt. simpl.
    rewrite Hsame, Hkept.
    destruct (String.eqb_spec (WalkerEntry.oid o) (WalkerEntry.oid b))
      as [Heq|_]; [contradiction|].
    rewrite String.eqb_refl, Z.eqb_refl.
    reflexivity.
Qed.

(** X13. When both sides changed the path and one of them is not a blob,
    [map] throws [MergeNotSupportedError] and calls nothing, unless the
    base is absent and both sides are trees. *)
Theorem type_conflict_not_supported
        (a : MergeTree.args) (filepath : string)
        (o t : WalkerEntry.t) (base : option WalkerEntry.t) (w : World) :
  modified (Some o) base = true ->
  modified (Some t) base = true ->
  WalkerEntry.type o <> "blob" \/ WalkerEntry.type t <> "blob" ->
  ~ (base = None /\ WalkerEntry.type o = "tree" /\
     WalkerEntry.type t = "tree") ->
  map a filepath (Some o) base (Some t) w
  = (Throw MergeNotSupportedError, w).
Proof.
  intros Hours Htheirs Hkind Htrees.
  unfold map. rewrite Hours, Htheirs.
  unfold added_on_both_sides, type_of, bind, ret, throw.
  destruct base as [b|]; simpl;
    repeat match goal with
           | |- context [WalkerEntry.type ?x =? ?k] =>
               destruct (String.eqb_spec (WalkerEntry.type x) k); simpl
           end;
    try reflexivity.
  all: exfalso; first [ destruct Hkind; contradiction
                      | apply Htrees; auto ].
Qed.

(** X14. Blobs added on both sides always reach the text merger, with an
    empty base text and the texts of the two sides, also when the two
    sides added the same oid: the shortcut on equal oids needs a base. *)
Theorem both_added_blobs_are_text_merged
        (a : MergeTree.args) (filepath : string)
        (o t : WalkerEntry.t) (w : World) :
  WalkerEntry.type o = "blob" ->
  WalkerEntry.type t = "blob" ->
  exists call rest,
    trace (snd (map a filepath (Some o) None (Some t) w))
    = (trace w ++ MergeFileCalled call :: rest)%list /\
    MergeFile.ourContent call = default "" (WalkerEntry.content o) /\
    MergeFile.baseContent call = "" /\
    MergeFile.theirContent call = default "" (WalkerEntry.content t).
Proof.
  intros Ho Ht. unfold map. simpl.
  unfold added_on_both_sides, type_of, bind at 1, ret. simpl.
  rewrite Ho. simpl. unfold bind at 1. rewrite Ht. simpl.
  destruct (mergeBlobs_text_merge
              (blobs_args_other a (basename filepath) (Some o) None (Some t))
              w eq_refl) as [rest Hrest].
  eexists. exists rest. split; [exact Hrest|]. auto.
Qed.

(** X15. A deletion that nothing contradicts is honoured without any call:
    with an entry in base, the path is absent from the result when one side
    deleted it and the other left it as it was, and when both sides deleted
    it. *)
Theorem deletion_honoured
        (a : MergeTree.args) (filepath : string)
        (ours theirs : option WalkerEntry.t) (b : WalkerEntry.t) (w : World) :
  (ours = None /\ modified theirs (Some b) = false) \/
  (theirs = None /\ modified ours (Some b) = false) \/
  (ours = None /\ theirs = None) ->
  map a filepath ours (Some b) theirs w = (Return None, w).
Proof.
  intros [[-> Hkept] | [[-> Hkept] | [-> ->]]]; unfold map.
  - rewrite Hkept. reflexivity.
  - rewrite Hkept. reflexivity.
  - reflexivity.
Qed.

(** When [mergeBlobs] returns absent, a resolver was called after the text
    merger and returned an empty or missing text. *)
Lemma mergeBlobs_absent (a : MergeBlobs.args) (w w' : World) :
  mergeBlobs a w = (Return None, w') ->
  exists callback fullpath text,
    MergeBlobs.asyncMergeConflictCallback a = Some callback /\
    MergeFile.cleanMerge (mergeFile (text_merge_call a)) = false /\
    callback (MergeFile.mergedText (mergeFile (text_merge_call a))) fullpath
    = Resolves text /\
    truthy_text text = false /\
    w' = mkWorld (store w)
                 (trace w
                  ++ [MergeFileCalled (text_merge_call a);
                      ResolverCalled
                        (MergeFile.mergedText (mergeFile (text_merge_call a)))
                        fullpath]).
Proof.
  unfold mergeBlobs.
  destruct (shortcut _ _ _ _); [discriminate|].
  unfold bind, callMergeFile.
  destruct (MergeFile.cleanMerge _) eqn:Hclean.
  - unfold ret. rewrite write_merged_blob_eq. discriminate.
  - unfold resolve_conflict.
    destruct (conflict_fullpath _ _ _) as [fullpath|]; [|discriminate].
    destruct (MergeBlobs.asyncMergeConflictCallback a) as [callback|];
      [|discriminate].
    destruct (callback _ _) as [text|message] eqn:Hcall; [|discriminate].
    destruct (truthy_text text) eqn:Htext.
    + destruct text as [text|]; [|discriminate].
      rewrite write_merged_blob_eq. discriminate.
    + intros [= <-]. exists callback, fullpath, text.
      repeat split; try assumption.
      unfold emit. simpl. rewrite <- app_assoc. reflexivity.
Qed.

(** X16. [map] never drops a path that both sides still have on its own
    account: when ours and theirs are present and the result is absent,
    what [map] did is one call of the text merger on the texts of the three
    sides, which was not clean, followed by one call of the resolver of
    [mergeTree] on the merged text, which returned an empty or missing
    text; the store is what it was. *)
Theorem present_on_both_sides_dropped_only_by_resolver
        (a : MergeTree.args) (filepath : string)
        (o t : WalkerEntry.t) (base : option WalkerEntry.t) (w w' : World) :
  map a filepath (Some o) base (Some t) w = (Return None, w') ->
  exists callback call fullpath text,
    MergeTree.asyncMergeConflictCallback a = Some callback /\
    MergeFile.ourContent call = default "" (WalkerEntry.content o) /\
    MergeFile.baseContent call = content_or_empty base /\
    MergeFile.theirContent call = default "" (WalkerEntry.content t) /\
    MergeFile.cleanMerge (mergeFile call) = false /\
    callback (MergeFile.mergedText (mergeFile call)) fullpath
    = Resolves text /\
    truthy_text text = false /\
    w' = mkWorld (store w)
                 (trace w
                  ++ [MergeFileCalled call;
                      ResolverCalled (MergeFile.mergedText (mergeFile call))
                                     fullpath]).
Proof.
  unfold map.
  destruct (modified (Some o) base) eqn:Hours;
    destruct (modified (Some t) base) eqn:Htheirs;
    destruct base as [b|];
    try discriminate Hours; try discriminate Htheirs;
    unfold added_on_both_sides, type_of, bind, ret, throw; simpl;
    repeat match goal with
           | |- context [WalkerEntry.type ?x =? ?k] =>
               destruct (String.eqb_spec (WalkerEntry.type x) k); simpl
           end;
    try discriminate.
  all: intros Habsent;
    destruct (mergeBlobs_absent _ _ _ Habsent)
      as (callback & fullpath & text & Hcb & Hclean & Hcall & Htext & ->);
    exists callback; eexists; exists fullpath, text;
    (split; [exact Hcb|]);
    refine (conj _ (conj _ (conj _ (conj Hclean
                                         (conj Hcall (conj Htext eq_refl))))));
    reflexivity.
Qed.

(** *** More on the reducer and on the whole walk *)

Lemma filter_Boolean_In (children : list (option TreeEntry.t))
      (e : TreeEntry.t) :
  In e (filter_Boolean children) <-> In (Some e) children.
Proof.
  induction children as [|[c|] rest IH]; simpl.
  - tauto.
  - rewrite IH. split; intros [H|H]; auto; left; congruence.
  - rewrite IH. split; [auto|]. intros [H|H]; [discriminate|assumption].
Qed.

(** X17. A parent with at least one surviving child, of whatever type, is
    returned with the address of the tree rebuilt from exactly the present
    children; that tree is the one write, asked for under the [dryRun] of
    [mergeTree], so it enters the store unless the run is dry. *)
Theorem reduce_rebuilds_directory
        (a : MergeTree.args) (p : TreeEntry.t)
        (children : list (option TreeEntry.t)) (w : World) :
  filter_Boolean children <> [] ->
  let entries := filter_Boolean children in
  let oid := hashObject (Tree entries) in
  reduce a (Some p) children w
  = (Return (Some (TreeEntry.mk (TreeEntry.mode p) (TreeEntry.path p) oid
                                (TreeEntry.type p))),
     let w1 :=
       emit (WriteObjectCalled (Tree entries) (Some (MergeTree.dryRun' a)))
            w in
     if MergeTree.dryRun' a then w1 else persist oid (Tree entries) w1) /\
  (forall e, In e entries <-> In (Some e) children).
Proof.
  intros Hsome entries oid. split; [|apply filter_Boolean_In].
  unfold reduce. fold entries.
  destruct entries as [|e rest] eqn:Hentries; [contradiction|].
  simpl. rewrite andb_false_r.
  unfold bind, writeObject, ret. simpl.
  destruct (MergeTree.dryRun' a); reflexivity.
Qed.

Lemma keeps_sequence {A B} (R : World -> World -> Prop)
      (m : Async A) (k : A -> Async B) :
  (forall w1 w2 w3, R w1 w2 -> R w2 w3 -> R w1 w3) ->
  keeps R m -> (forall x, keeps R (k x)) -> keeps R (bind m k).
Proof.
  intros Htrans Hm Hk w. unfold bind. specialize (Hm w).
  destruct (m w) as [[x|e] w1]; simpl in *; [|assumption].
  eapply Htrans; [eassumption|apply Hk].
Qed.

(** A reflexive and transitive relation that [mergeBlobs] keeps is kept by
    [map]. *)
Lemma map_keeps (R : World -> World -> Prop) (a : MergeTree.args)
      (filepath : string) (ours base theirs : option WalkerEntry.t) :
  (forall w, R w w) ->
  (forall w1 w2 w3, R w1 w2 -> R w2 w3 -> R w1 w3) ->
  (forall args, keeps R (mergeBlobs args)) ->
  keeps R (map a filepath ours base theirs).
Proof.
  intros Hrefl Htrans Hblobs.
  unfold map, added_on_both_sides, type_of.
  repeat match goal with
         | |- keeps _ (mergeBlobs _) => apply Hblobs
         | |- keeps _ (ret _) => intros w; apply Hrefl
         | |- keeps _ (throw _) => intros w; apply Hrefl
         | |- keeps _ (bind _ _) =>
             apply keeps_sequence; [exact Htrans| |intros ?]
         | |- keeps _ (match ?x with _ => _ end) => destruct x
         end.
Qed.

(** The store after [mergeBlobs] is the store before, possibly with one
    blob added. *)
Lemma mergeBlobs_store (a : MergeBlobs.args) (w : World) :
  store (snd (mergeBlobs a w)) = store w \/
  exists text,
    store (snd (mergeBlobs a w))
    = <[hashObject (Blob text) := Blob text]> (store w).
Proof.
  unfold mergeBlobs.
  destruct (shortcut _ _ _ _); [left; reflexivity|].
  unfold bind, callMergeFile.
  destruct (MergeFile.cleanMerge _).
  - unfold ret. rewrite write_merged_blob_eq.
    destruct (truthy_flag _); simpl; eauto.
  - unfold resolve_conflict.
    destruct (conflict_fullpath _ _ _); [|left; reflexivity].
    destruct (MergeBlobs.asyncMergeConflictCallback a) as [callback|];
      [|left; reflexivity].
    destruct (callback _ _) as [text|message]; [|left; reflexivity].
    destruct (truthy_text text) eqn:Htext; [|left; reflexivity].
    destruct text as [text|]; [|discriminate].
    rewrite write_merged_blob_eq.
    destruct (truthy_flag _); simpl; eauto.
Qed.

(** X18. In a dry run no tree enters the store, whatever the trees and
    whatever the outcome: the only objects a run of [mergeTree] with
    [dryRun = true] can add are blobs. *)
Theorem dry_run_persists_no_tree (a : MergeTree.args) (root : TripleTree) :
  MergeTree.dryRun' a = true ->
  keeps no_tree_persisted (mergeTree a root).
Proof.
  intros Hdry.
  assert (Hrefl : forall w, no_tree_persisted w w) by (intros w o entries; auto).
  assert (Htrans : forall w1 w2 w3,
             no_tree_persisted w1 w2 -> no_tree_persisted w2 w3 ->
             no_tree_persisted w1 w3).
  { intros w1 w2 w3 H12 H23 o entries H. apply H12, H23, H. }
  unfold mergeTree. apply keeps_sequence; [exact Htrans| |].
  - apply (walk_closure (fun A => keeps no_tree_persisted)).
    + intros A x w. apply Hrefl.
    + intros A B m k. apply keeps_sequence. exact Htrans.
    + intros filepath ours base theirs.
      apply map_keeps; [exact Hrefl|exact Htrans|].
      intros args w o entries.
      destruct (mergeBlobs_store args w) as [-> | [text ->]]; [auto|].
      destruct (decide (hashObject (Blob text) = o)) as [<- | Hother].
      * rewrite lookup_insert_eq. discriminate.
      * rewrite lookup_insert_ne by assumption. auto.
    + intros parent children w o entries.
      destruct (reduce_world a parent children w)
        as [-> | (entries' & _ & ->)]; [auto|].
      unfold writeObject. rewrite Hdry. simpl. auto.
  - intros [r|] w; apply Hrefl.
Qed.

(** Walking children that all come back absent yields no surviving
    entry. *)
Lemma walk_children_absent (a : MergeTree.args) (children : list TripleTree) :
  Forall (fun child =>
            forall w, fst (_walk basename mergeFile hashObject a child w)
                      = Return None) children ->
  forall w,
  exists rs w',
    (fix iterate (nodes : list TripleTree)
       : Async (list (option TreeEntry.t)) :=
       match nodes with
       | [] => ret []
       | child :: rest =>
           let* r := _walk basename mergeFile hashObject a child in
           let* rs := iterate rest in
           ret (r :: rs)
       end) children w = (Return rs, w') /\
    filter_Boolean rs = [].
Proof.
  induction 1 as [|child rest Hchild _ IH]; intros w.
  - exists [], w. split; reflexivity.
  - unfold bind at 1. specialize (Hchild w).
    destruct (_walk basename mergeFile hashObject a child w) as [c w1].
    simpl in Hchild. subst c.
    destruct (IH w1) as (rs & w' & Heq & Hnone).
    unfold bind at 1. rewrite Heq.
    exists (None :: rs), w'. split; [reflexivity|exact Hnone].
Qed.

(** X19. A merge that leaves nothing under the root fails with a
    [TypeError] instead of returning a tree: when the root is a directory on
    the three sides and every child comes back absent (in particular when
    there is no child), the root is pruned like any emptied directory and
    [mergeTree] reads the oid of an absent result. *)
Theorem merge_that_empties_root_fails
        (a : MergeTree.args) (filepath : string)
        (o b t : WalkerEntry.t) (children : list TripleTree) (w : World) :
  WalkerEntry.type o = "tree" ->
  WalkerEntry.type b = "tree" ->
  WalkerEntry.type t = "tree" ->
  Forall (fun child =>
            forall w1, fst (_walk basename mergeFile hashObject a child w1)
                       = Return None) children ->
  fst (mergeTree a (TripleNode filepath (Some o) (Some b) (Some t) children) w)
  = Throw TypeError.
Proof.
  intros Ho Hb Ht Hchildren.
  unfold mergeTree. simpl _walk. unfold map. simpl modified.
  rewrite Ho, Hb, Ht. simpl.
  destruct (walk_children_absent a children Hchildren w)
    as (rs & w' & Heq & Hnone).
  unfold bind at 1. unfold bind at 1. unfold ret at 1.
  unfold bind at 1. rewrite Heq.
  unfold reduce. rewrite Hnone. simpl. rewrite Hb. reflexivity.
Qed.


Lemma only_trees_written_refl (w : World) : only_trees_written w w.
Proof.
  split; [|auto]. exists []. split; [symmetry; apply app_nil_r|constructor].
Qed.

Lemma only_trees_written_trans (w1 w2 w3 : World) :
  only_trees_written w1 w2 -> only_trees_written w2 w3 ->
  only_trees_written w1 w3.
Proof.
  intros [(l1 & Ht1 & Hl1) Hs1] [(l2 & Ht2 & Hl2) Hs2]. split; [|auto].
  exists (l1 ++ l2)%list. split.
  - rewrite Ht2, Ht1, app_assoc. reflexivity.
  - apply Forall_app. auto.
Qed.

(** When at most one side changed, [map] calls nothing. *)
Lemma map_one_sided (a : MergeTree.args) (filepath : string)
      (ours base theirs : option WalkerEntry.t) (w : World) :
  modified ours base = false \/ modified theirs base = false ->
  snd (map a filepath ours base theirs w) = w.
Proof.
  intros Hside. unfold map.
  destruct (modified ours base), (modified theirs base);
    [destruct Hside; discriminate| | |destruct base]; reflexivity.
Qed.

Lemma walk_one_sided (a : MergeTree.args) :
  forall node,
    one_sided node ->
    keeps only_trees_written (_walk basename mergeFile hashObject a node).
Proof.
  fix IH 1. intros [filepath ours base theirs children] Hnode.
  simpl in Hnode. destruct Hnode as [Hside Hall]. simpl _walk.
  apply keeps_sequence; [exact only_trees_written_trans| |].
  { intros w. rewrite (map_one_sided a filepath ours base theirs w Hside).
    apply only_trees_written_refl. }
  intros parent.
  apply keeps_sequence; [exact only_trees_written_trans| |].
  - induction children as [|child rest IHrest].
    + intros w. apply only_trees_written_refl.
    + destruct Hall as [Hchild Hrest].
      apply keeps_sequence; [exact only_trees_written_trans| |].
      { apply IH. exact Hchild. }
      intros r.
      apply keeps_sequence; [exact only_trees_written_trans| |].
      { apply IHrest. exact Hrest. }
      intros rs w. apply only_trees_written_refl.
  - intros walkedChildren w.
    destruct (reduce_world a parent walkedChildren w)
      as [-> | (entries & _ & ->)]; [apply only_trees_written_refl|].
    unfold writeObject. split.
    + exists [WriteObjectCalled (Tree entries) (Some (MergeTree.dryRun' a))].
      split; [|repeat constructor].
      destruct (truthy_flag _); reflexivity.
    + intros o text.
      destruct (truthy_flag _); simpl; [auto|].
      destruct (decide (hashObject (Tree entries) = o)) as [<- | Hother].
      * rewrite lookup_insert_eq. discriminate.
      * rewrite lookup_insert_ne by assumption. auto.
Qed.

(** X20. A merge in which no path was changed on both sides is settled
    without the text merger and without the resolver: the only calls of
    [mergeTree] are writes of rebuilt trees, and no blob enters the
    store. *)
Theorem one_sided_merge_writes_only_trees
        (a : MergeTree.args) (root : TripleTree) :
  one_sided root ->
  keeps only_trees_written (mergeTree a root).
Proof.
  intros Hroot. unfold mergeTree.
  apply keeps_sequence; [exact only_trees_written_trans| |].
  - apply walk_one_sided. exact Hroot.
  - intros [r|] w; apply only_trees_written_refl.
Qed.

(** X22. An edit on one side against a deletion on the other is never
    settled silently: with an entry in base, a modified blob on one side
    and nothing on the other, [map] reaches the text merger with the text
    of the blob, the text of base and an empty text for the side that
    deleted. *)
Theorem edit_against_deletion_is_text_merged
        (a : MergeTree.args) (filepath : string)
        (e b : WalkerEntry.t) (w : World) :
  WalkerEntry.type e = "blob" ->
  modified (Some e) (Some b) = true ->
  (exists call rest,
      trace (snd (map a filepath (Some e) (Some b) None w))
      = (trace w ++ MergeFileCalled call :: rest)%list /\
      MergeFile.ourContent call = default "" (WalkerEntry.content e) /\
      MergeFile.baseContent call = default "" (WalkerEntry.content b) /\
      MergeFile.theirContent call = "") /\
  (exists call rest,
      trace (snd (map a filepath None (Some b) (Some e) w))
      = (trace w ++ MergeFileCalled call :: rest)%list /\
      MergeFile.ourContent call = "" /\
      MergeFile.baseContent call = default "" (WalkerEntry.content b) /\
      MergeFile.theirContent call = default "" (WalkerEntry.content e)).
Proof.
  intros Hblob Hmod. split.
  - unfold map. rewrite Hmod. simpl.
    unfold added_on_both_sides, bind at 1, bind at 1, ret. simpl.
    rewrite Hblob. simpl.
    assert (Hcut : shortcut (basename filepath) (Some e) (Some b) None = None).
    { unfold shortcut. simpl. rewrite andb_false_r. reflexivity. }
    destruct (mergeBlobs_text_merge
                (blobs_args_other a (basename filepath) (Some e) (Some b) None)
                w Hcut) as [rest Hrest].
    eexists. exists rest. split; [exact Hrest|]. auto.
  - unfold map. rewrite Hmod. simpl.
    unfold added_on_both_sides, bind at 1, bind at 1, ret. simpl.
    rewrite Hblob. simpl.
    assert (Hcut : shortcut (basename filepath) None (Some b) (Some e) = None).
    { unfold shortcut. simpl. rewrite andb_false_r. reflexivity. }
    destruct (mergeBlobs_text_merge
                (blobs_args_other a (basename filepath) None (Some b) (Some e))
                w Hcut) as [rest Hrest].
    eexists. exists rest. split; [exact Hrest|]. auto.
Qed.

(** X23. A directory that both sides added where base has nothing is no
    conflict: [map] returns the entry of ours and calls nothing, also when
    the two directories differ; their contents meet in the children. *)
Theorem both_added_directories_take_ours
        (a : MergeTree.args) (filepath : string)
        (o t : WalkerEntry.t) (w : World) :
  WalkerEntry.type o = "tree" ->
  WalkerEntry.type t = "tree" ->
  map a filepath (Some o) None (Some t) w
  = (Return (Some (TreeEntry.mk (Some (WalkerEntry.mode o))
                                (basename filepath)
                                (WalkerEntry.oid o) "tree")), w).
Proof.
  intros Ho Ht. unfold map. simpl.
  unfold added_on_both_sides, type_of, bind, ret. simpl.
  rewrite Ho, Ht. simpl. unfold entry_of. rewrite Ho. reflexivity.
Qed.
End Properties.

(** ** The properties on concrete inputs *)

Section Concrete.

Import Fixture.

Local Abbreviation map := (map basename mergeFile hashObject).
Local Abbreviation mergeBlobs := (mergeBlobs mergeFile hashObject).
Local Abbreviation reduce := (reduce hashObject).
Local Abbreviation mergeTree := (mergeTree basename mergeFile hashObject).

Lemma modified_decision_table_witness :
  modified None None = false /\
  modified (Some a_ours) None = true /\
  modified None (Some a_base) = true /\
  modified (Some (src_of a_ours)) (Some (src_of a_base)) = false /\
  modified (Some a_base) (Some a_base) = false /\
  modified (Some a_ours) (Some a_base) = true.
Proof.
  refine (conj _ (conj _ (conj _ (conj _ (conj _ _))))).
  - apply (proj1 (modified_decision_table None None)); reflexivity.
  - apply (proj1 (proj2 (modified_decision_table (Some a_ours) None))).
    simpl. discriminate.
  - apply (proj1 (proj2 (modified_decision_table None (Some a_base)))).
    simpl. discriminate.
  - apply (proj1 (proj2 (proj2 (modified_decision_table
                                  (Some (src_of a_ours))
                                  (Some (src_of a_base))))
                    (src_of a_ours) (src_of a_base) eq_refl eq_refl)).
    exact (conj eq_refl eq_refl).
  - apply (proj1 (proj2 (proj2 (proj2 (modified_decision_table
                                         (Some a_base) (Some a_base)))
                           a_base a_base eq_refl eq_refl))).
    exact (conj eq_refl (conj eq_refl eq_refl)).
  - apply (proj2 (proj2 (proj2 (proj2 (modified_decision_table
                                         (Some a_ours) (Some a_base)))
                           a_ours a_base eq_refl eq_refl))).
    + intros [H _]. discriminate H.
    + intros (_ & _ & H). discriminate H.
Defined.

Lemma pass_through_base_present_witness :
  exists b,
    Some a_base = Some b /\
    map (call false keep_both) "src/a.txt"
        (Some a_base) (Some a_base) (Some a_base) empty_world
    = (Return (Some (entry_of (basename "src/a.txt") b)), empty_world).
Proof.
  apply (pass_through_base_present basename mergeFile hashObject
           (call false keep_both) "src/a.txt"
           (Some a_base) (Some a_base) (Some a_base) empty_world);
    reflexivity.
Defined.

Lemma blob_to_directory_on_one_side_witness :
  map (call false keep_both) "src/a.txt"
      (Some a_directory) (Some a_base) (Some a_base) empty_world
  = (Return (Some (entry_of "a.txt" a_directory)), empty_world) /\
  map (call false keep_both) "src/a.txt"
      (Some a_directory) (Some a_base) (Some a_theirs) empty_world
  = (Throw MergeNotSupportedError, empty_world).
Proof.
  destruct (blob_to_directory_on_one_side basename mergeFile hashObject
              (call false keep_both) "src/a.txt" a_directory a_base
              empty_world eq_refl eq_refl) as [Hkept Hchanged].
  split.
  - apply (Hkept a_base); reflexivity.
  - apply (Hchanged (Some a_theirs)). reflexivity.
Defined.

Lemma both_sides_identical_change_witness :
  map (call false keep_both) "src/a.txt"
      (Some a_ours) (Some a_base) (Some a_theirs_agreeing) empty_world
  = (Return (Some (TreeEntry.mk (Some executable) "a.txt"
                                (WalkerEntry.oid a_ours) "blob")),
     empty_world).
Proof.
  apply (both_sides_identical_change basename mergeFile hashObject
           (call false keep_both) "src/a.txt"
           a_ours a_base a_theirs_agreeing empty_world);
    try reflexivity; discriminate.
Defined.

Lemma resolver_returns_empty_witness :
  mergeBlobs (conflict empty_file) empty_world
  = (Return None,
     mkWorld ∅
             [MergeFileCalled (text_merge_call (conflict empty_file));
              ResolverCalled "<<<<<<< ours|AB|=======|AC|>>>>>>> theirs"
                             "src/a.txt"]).
Proof.
  apply (resolver_returns_empty mergeFile hashObject
           (conflict empty_file) empty_file "src/a.txt" (Some "")
           empty_world);
    reflexivity.
Defined.

Lemma resolver_rejection_witness :
  fst (mergeBlobs (conflict abort) empty_world) = Throw MergeAbortedError /\
  fst (mergeBlobs (conflict crash) empty_world) = Throw MergeNotSupportedError.
Proof.
  split.
  - apply (proj1 (resolver_rejection mergeFile hashObject
                    (conflict abort) abort "src/a.txt"
                    (Some "Aborted merge") empty_world
                    eq_refl eq_refl eq_refl eq_refl eq_refl)).
    reflexivity.
  - apply (proj1 (proj2 (resolver_rejection mergeFile hashObject
                           (conflict crash) crash "src/a.txt"
                           (Some "disk full") empty_world
                           eq_refl eq_refl eq_refl eq_refl eq_refl))).
    discriminate.
Defined.

Lemma reduce_prunes_witness :
  reduce (call false keep_both) None [Some src_entry] empty_world
  = (Return None, empty_world) /\
  reduce (call false keep_both) (Some src_entry) [None; None] empty_world
  = (Return None, empty_world) /\
  (store (snd (reduce (call false keep_both) (Some src_entry)
                      [None; None] empty_world))
     !! hashObject (Tree []) = Some (Tree []) ->
   store empty_world !! hashObject (Tree []) = Some (Tree [])).
Proof.
  refine (conj _ (conj _ _)).
  - apply (proj1 (reduce_prunes hashObject (call false keep_both)
                    None [Some src_entry] empty_world)).
    reflexivity.
  - apply (proj1 (proj2 (reduce_prunes hashObject (call false keep_both)
                           (Some src_entry) [None; None] empty_world))
             src_entry); reflexivity.
  - apply (proj1 (proj2 (proj2 (reduce_prunes hashObject
                                  (call false keep_both)
                                  (Some src_entry) [None; None]
                                  empty_world)))).
Defined.

(** C2 as stated fails: with a blob in base, a directory in ours and the
    unchanged blob in theirs, the decision returns the directory of ours
    and throws nothing. *)
Lemma directory_over_unchanged_blob_is_taken :
  map (call false keep_both) "src/a.txt"
      (Some a_directory) (Some a_base) (Some a_base) empty_world
  = (Return (Some (TreeEntry.mk (Some directory) "a.txt"
                                (WalkerEntry.oid a_directory) "tree")),
     empty_world) /\
  fst (map (call false keep_both) "src/a.txt"
           (Some a_directory) (Some a_base) (Some a_base) empty_world)
  <> Throw MergeNotSupportedError.
Proof. split; [reflexivity | discriminate]. Qed.

(** C1 on the code: a merge of [src] with [dryRun = true] whose conflict
    on [src/a.txt] the resolver settles returns the oid of the merged tree
    and leaves the resolved blob in a store that was empty; [writeObject]
    was called for the blob with no [dryRun] and for the tree with
    [dryRun = true]. *)
Theorem dry_run_persists_merged_blob :
  exists w,
    mergeTree (call true keep_both) conflicting_src empty_world
    = (Return (hashObject
                 (Tree [TreeEntry.mk (Some regular) "a.txt"
                                     (hashObject (Blob "ABC")) "blob"])),
       w) /\
    store empty_world !! hashObject (Blob "ABC") = None /\
    store w !! hashObject (Blob "ABC") = Some (Blob "ABC") /\
    In (WriteObjectCalled (Blob "ABC") None) (trace w) /\
    In (WriteObjectCalled
          (Tree [TreeEntry.mk (Some regular) "a.txt"
                              (hashObject (Blob "ABC")) "blob"])
          (Some true))
       (trace w).
Proof.
  eexists. split; [vm_compute; reflexivity|].
  repeat split; vm_compute; auto.
Qed.

(** C6 on the code: base mode 100644, ours mode 100644, theirs mode
    100755, three different contents and a resolved conflict. The rule
    gives theirs' mode 100755; the entry carries ours' mode 100644. *)
Theorem text_merge_keeps_our_mode :
  WalkerEntry.mode a_base = WalkerEntry.mode a_ours /\
  WalkerEntry.mode a_theirs = executable /\
  exists oid w,
    mergeBlobs (conflict keep_both) empty_world
    = (Return (Some (TreeEntry.mk (Some regular) "a.txt" oid "blob")), w) /\
    Some regular <> Some (WalkerEntry.mode a_theirs).
Proof.
  split; [reflexivity|]. split; [reflexivity|].
  eexists. eexists. split; [vm_compute; reflexivity | discriminate].
Qed.

(** C9 on the code: [mergeTree] is called with [baseName = 'ancestor'].
    When both sides added [src/a.txt], and when ours edited it and theirs
    deleted it, the base label handed to the text merger is [undefined];
    in the three-way case it is ['ancestor']. *)
Theorem base_label_dropped_outside_three_way :
  (exists rest,
      trace (snd (map (call false keep_both) "src/a.txt"
                      (Some a_ours) None (Some a_theirs) empty_world))
      = MergeFileCalled
          (MergeFile.mk_args "AB" "" "AC" (Some "ours") (Some "theirs")
                             None None None) :: rest) /\
  (exists rest,
      trace (snd (map (call false keep_both) "src/a.txt"
                      (Some a_ours) (Some a_base) None empty_world))
      = MergeFileCalled
          (MergeFile.mk_args "AB" "A" "" (Some "ours") (Some "theirs")
                             None None None) :: rest) /\
  (exists rest,
      trace (snd (map (call false keep_both) "src/a.txt"
                      (Some a_ours) (Some a_base) (Some a_theirs)
                      empty_world))
      = MergeFileCalled
          (MergeFile.mk_args "AB" "A" "AC" (Some "ours") (Some "theirs")
                             (Some "ancestor") None None) :: rest).
Proof.
  refine (conj _ (conj _ _)); eexists; vm_compute; reflexivity.
Qed.


Lemma unmodified_sides_agree_witness :
  modified (Some (src_of a_ours)) (Some (src_of a_theirs)) = false.
Proof.
  apply (unmodified_sides_agree (Some (src_of a_ours)) (Some (src_of a_base))
                                (Some (src_of a_theirs)));
    reflexivity.
Defined.

Lemma single_side_change_differs_witness :
  modified (Some a_theirs) (Some a_base) = true.
Proof.
  apply (single_side_change_differs (Some a_base) (Some a_theirs)
                                    (Some a_base));
    reflexivity.
Defined.

Lemma mergeBlobs_entry_inherits_witness :
  TreeEntry.type (TreeEntry.mk (Some regular) "a.txt"
                               (hashObject (Blob "ABC")) "blob") = "blob" /\
  TreeEntry.path (TreeEntry.mk (Some regular) "a.txt"
                               (hashObject (Blob "ABC")) "blob")
  = MergeBlobs.path (conflict keep_both) /\
  (TreeEntry.mode (TreeEntry.mk (Some regular) "a.txt"
                                (hashObject (Blob "ABC")) "blob")
   = WalkerEntry.mode <$> MergeBlobs.ours (conflict keep_both) \/
   TreeEntry.mode (TreeEntry.mk (Some regular) "a.txt"
                                (hashObject (Blob "ABC")) "blob")
   = WalkerEntry.mode <$> MergeBlobs.theirs (conflict keep_both)).
Proof.
  apply (mergeBlobs_entry_inherits mergeFile hashObject
           (conflict keep_both) empty_world).
  reflexivity.
Defined.

Lemma mergeBlobs_throws_only_on_conflict_witness :
  shortcut (MergeBlobs.path (conflict abort)) (MergeBlobs.ours (conflict abort))
           (MergeBlobs.base (conflict abort))
           (MergeBlobs.theirs (conflict abort)) = None /\
  MergeFile.cleanMerge (mergeFile (text_merge_call (conflict abort))) = false /\
  (MergeAbortedError = MergeNotSupportedError \/
   MergeAbortedError = MergeAbortedError /\
   exists callback fullpath,
     MergeBlobs.asyncMergeConflictCallback (conflict abort) = Some callback /\
     callback (MergeFile.mergedText
                 (mergeFile (text_merge_call (conflict abort)))) fullpath
     = Rejects (Some "Aborted merge")).
Proof.
  apply (mergeBlobs_throws_only_on_conflict mergeFile hashObject
           (conflict abort) empty_world MergeAbortedError).
  reflexivity.
Defined.

Lemma clean_merge_skips_resolver_witness :
  mergeBlobs added_twice empty_world
  = (Return (Some (TreeEntry.mk (Some regular) "a.txt"
                                (hashObject (Blob "AB")) "blob")),
     persist (hashObject (Blob "AB")) (Blob "AB")
             (mkWorld ∅ [MergeFileCalled (text_merge_call added_twice);
                         WriteObjectCalled (Blob "AB") None])).
Proof.
  apply (clean_merge_skips_resolver mergeFile hashObject
           added_twice empty_world);
    reflexivity.
Defined.

Lemma resolver_text_is_written_witness :
  mergeBlobs (conflict keep_both) empty_world
  = (Return (Some (TreeEntry.mk (Some regular) "a.txt"
                                (hashObject (Blob "ABC")) "blob")),
     persist (hashObject (Blob "ABC")) (Blob "ABC")
             (mkWorld ∅ [MergeFileCalled (text_merge_call (conflict keep_both));
                         ResolverCalled
                           "<<<<<<< ours|AB|=======|AC|>>>>>>> theirs"
                           "src/a.txt";
                         WriteObjectCalled (Blob "ABC") None])).
Proof.
  apply (resolver_text_is_written mergeFile hashObject
           (conflict keep_both) keep_both "src/a.txt" "ABC" empty_world);
    try reflexivity.
  discriminate.
Defined.

Lemma conflict_without_resolver_fails_witness :
  mergeBlobs conflict_without_resolver empty_world
  = (Throw MergeNotSupportedError,
     mkWorld ∅ [MergeFileCalled (text_merge_call conflict_without_resolver)]).
Proof.
  apply (conflict_without_resolver_fails mergeFile hashObject
           conflict_without_resolver empty_world);
    reflexivity.
Defined.

Lemma map_never_TypeError_witness :
  fst (map (call false keep_both) "src/a.txt"
           (Some a_ours) None (Some a_theirs) empty_world)
  <> Throw TypeError.
Proof.
  apply (map_never_TypeError basename mergeFile hashObject
           (call false keep_both) "src/a.txt"
           (Some a_ours) None (Some a_theirs) empty_world).
  reflexivity.
Defined.

Lemma map_entry_named_and_typed_witness :
  TreeEntry.path (entry_of "a.txt" a_theirs) = basename "src/a.txt" /\
  exists x,
    (Some a_base = Some x \/ Some a_base = Some x \/ Some a_theirs = Some x) /\
    TreeEntry.type (entry_of "a.txt" a_theirs) = WalkerEntry.type x.
Proof.
  apply (map_entry_named_and_typed basename mergeFile hashObject
           (call false keep_both) "src/a.txt"
           (Some a_base) (Some a_base) (Some a_theirs) empty_world).
  reflexivity.
Defined.

Lemma mode_change_meets_content_change_witness :
  map (call false keep_both) "src/a.txt"
      (Some a_ours_chmod) (Some a_base) (Some a_theirs) empty_world
  = (Return (Some (TreeEntry.mk (Some executable) "a.txt"
                                (WalkerEntry.oid a_theirs) "blob")),
     empty_world) /\
  map (call false keep_both) "src/a.txt"
      (Some a_ours) (Some a_base) (Some a_ours_chmod) empty_world
  = (Return (Some (TreeEntry.mk (Some executable) "a.txt"
                                (WalkerEntry.oid a_ours) "blob")),
     empty_world).
Proof.
  split.
  - apply (proj1 (mode_change_meets_content_change
                    basename mergeFile hashObject
                    (call false keep_both) "src/a.txt"
                    a_ours_chmod a_base a_theirs empty_world
                    eq_refl eq_refl eq_refl
                    ltac:(discriminate) ltac:(discriminate)
                    ltac:(discriminate)));
      [reflexivity | discriminate | discriminate].
  - apply (proj2 (mode_change_meets_content_change
                    basename mergeFile hashObject
                    (call false keep_both) "src/a.txt"
                    a_ours a_base a_ours_chmod empty_world
                    eq_refl eq_refl eq_refl
                    ltac:(discriminate) ltac:(discriminate)
                    ltac:(discriminate)));
      [reflexivity | discriminate | discriminate | reflexivity].
Defined.

Lemma type_conflict_not_supported_witness :
  map (call false keep_both) "src/a.txt"
      (Some a_directory) (Some a_base) (Some a_theirs) empty_world
  = (Throw MergeNotSupportedError, empty_world).
Proof.
  apply (type_conflict_not_supported basename mergeFile hashObject
           (call false keep_both) "src/a.txt"
           a_directory a_theirs (Some a_base) empty_world);
    [reflexivity | reflexivity | left; discriminate
    | intros [H _]; discriminate H].
Defined.

Lemma both_added_blobs_are_text_merged_witness :
  exists call rest,
    trace (snd (map (Fixture.call false keep_both) "src/a.txt"
                    (Some a_ours) None (Some a_ours) empty_world))
    = (trace empty_world ++ MergeFileCalled call :: rest)%list /\
    MergeFile.ourContent call = default "" (WalkerEntry.content a_ours) /\
    MergeFile.baseContent call = "" /\
    MergeFile.theirContent call = default "" (WalkerEntry.content a_ours).
Proof.
  apply (both_added_blobs_are_text_merged basename mergeFile hashObject
           (Fixture.call false keep_both) "src/a.txt"
           a_ours a_ours empty_world);
    reflexivity.
Defined.

Lemma deletion_honoured_witness :
  map (call false keep_both) "src/a.txt"
      None (Some a_base) (Some a_base) empty_world
  = (Return None, empty_world) /\
  map (call false keep_both) "src/a.txt"
      (Some a_base) (Some a_base) None empty_world
  = (Return None, empty_world) /\
  map (call false keep_both) "src/a.txt" None (Some a_base) None empty_world
  = (Return None, empty_world).
Proof.
  refine (conj _ (conj _ _)).
  - apply (deletion_honoured basename mergeFile hashObject
             (call false keep_both) "src/a.txt"
             None (Some a_base) a_base empty_world).
    left. split; reflexivity.
  - apply (deletion_honoured basename mergeFile hashObject
             (call false keep_both) "src/a.txt"
             (Some a_base) None a_base empty_world).
    right. left. split; reflexivity.
  - apply (deletion_honoured basename mergeFile hashObject
             (call false keep_both) "src/a.txt"
             None None a_base empty_world).
    right. right. split; reflexivity.
Defined.

Lemma present_on_both_sides_dropped_only_by_resolver_witness :
  exists callback call fullpath text,
    MergeTree.asyncMergeConflictCallback (Fixture.call false empty_file)
    = Some callback /\
    MergeFile.ourContent call = default "" (WalkerEntry.content a_ours) /\
    MergeFile.baseContent call = content_or_empty (Some a_base) /\
    MergeFile.theirContent call = default "" (WalkerEntry.content a_theirs) /\
    MergeFile.cleanMerge (mergeFile call) = false /\
    callback (MergeFile.mergedText (mergeFile call)) fullpath
    = Resolves text /\
    truthy_text text = false /\
    snd (map (Fixture.call false empty_file) "src/a.txt"
             (Some a_ours) (Some a_base) (Some a_theirs) empty_world)
    = mkWorld (store empty_world)
              (trace empty_world
               ++ [MergeFileCalled call;
                   ResolverCalled (MergeFile.mergedText (mergeFile call))
                                  fullpath]).
Proof.
  apply (present_on_both_sides_dropped_only_by_resolver
           basename mergeFile hashObject
           (Fixture.call false empty_file) "src/a.txt"
           a_ours a_theirs (Some a_base) empty_world).
  reflexivity.
Defined.

Lemma reduce_rebuilds_directory_witness :
  reduce (call true keep_both) (Some src_entry)
         [None; Some (entry_of "a.txt" a_theirs)] empty_world
  = (Return (Some (TreeEntry.mk
                     (Some directory) "src"
                     (hashObject (Tree [entry_of "a.txt" a_theirs])) "tree")),
     mkWorld ∅ [WriteObjectCalled (Tree [entry_of "a.txt" a_theirs])
                                  (Some true)]).
Proof.
  apply (proj1 (reduce_rebuilds_directory hashObject
                  (call true keep_both) src_entry
                  [None; Some (entry_of "a.txt" a_theirs)] empty_world
                  ltac:(discriminate))).
Defined.

Lemma dry_run_persists_no_tree_witness :
  no_tree_persisted
    empty_world
    (snd (mergeTree (call true keep_both) conflicting_src empty_world)).
Proof.
  apply (dry_run_persists_no_tree basename mergeFile hashObject
           (call true keep_both) conflicting_src eq_refl empty_world).
Defined.

Lemma merge_that_empties_root_fails_witness :
  fst (mergeTree (call false keep_both) emptied_src empty_world)
  = Throw TypeError.
Proof.
  apply (merge_that_empties_root_fails basename mergeFile hashObject
           (call false keep_both) "src"
           (dir [] "src") (src_of a_base) (dir [] "src")
           [TripleNode "src/a.txt" None (Some a_base) None []]
           empty_world eq_refl eq_refl eq_refl).
  constructor; [intros w1; reflexivity | constructor].
Defined.

Lemma one_sided_merge_writes_only_trees_witness :
  only_trees_written
    empty_world
    (snd (mergeTree (call false keep_both) one_sided_src empty_world)).
Proof.
  apply (one_sided_merge_writes_only_trees basename mergeFile hashObject
           (call false keep_both) one_sided_src).
  simpl. repeat split; left; reflexivity.
Defined.

Lemma edit_against_deletion_is_text_merged_witness :
  (exists call rest,
      trace (snd (map (Fixture.call false keep_both) "src/a.txt"
                      (Some a_ours) (Some a_base) None empty_world))
      = (trace empty_world ++ MergeFileCalled call :: rest)%list /\
      MergeFile.ourContent call = default "" (WalkerEntry.content a_ours) /\
      MergeFile.baseContent call = default "" (WalkerEntry.content a_base) /\
      MergeFile.theirContent call = "") /\
  (exists call rest,
      trace (snd (map (Fixture.call false keep_both) "src/a.txt"
                      None (Some a_base) (Some a_ours) empty_world))
      = (trace empty_world ++ MergeFileCalled call :: rest)%list /\
      MergeFile.ourContent call = "" /\
      MergeFile.baseContent call = default "" (WalkerEntry.content a_base) /\
      MergeFile.theirContent call = default "" (WalkerEntry.content a_ours)).
Proof.
  apply (edit_against_deletion_is_text_merged basename mergeFile hashObject
           (Fixture.call false keep_both) "src/a.txt"
           a_ours a_base empty_world);
    reflexivity.
Defined.

Lemma both_added_directories_take_ours_witness :
  map (call false keep_both) "src"
      (Some (src_of a_ours)) None (Some (src_of a_theirs)) empty_world
  = (Return (Some (TreeEntry.mk (Some directory) "src"
                                (WalkerEntry.oid (src_of a_ours)) "tree")),
     empty_world).
Proof.
  apply (both_added_directories_take_ours basename mergeFile hashObject
           (call false keep_both) "src"
           (src_of a_ours) (src_of a_theirs) empty_world);
    reflexivity.
Defined.

End Concrete.
